(** * Retweet / mention network builder: a shallow embedding

    The program keeps one module-level [networkx.DiGraph] and fills it from
    the tweet documents of a MongoDB collection.  This file embeds

    - the fragment of [networkx.DiGraph] the program uses (nodes and edges with
      attribute dictionaries), as finite maps;
    - [add_user] and [add_relation], the two upsert operations;
    - [query_tweets], the scan over the stored tweets, as a computation in a
      state-and-exception monad whose state is the graph, the log, the trace of
      store accesses and the standard output;

    and proves the properties of the specification about them. *)

From Stdlib Require Import ZArith Ascii.
From stdpp Require Import base gmap strings list fin_maps.

Set Warnings "-register-all".
Local Open Scope Z_scope.

(** ** Python exceptions and results *)

Inductive exn : Type :=
  | AssertionError (msg : string)
  | KeyError (key : string)
  | TypeError
  | ValueError.

Inductive result (A : Type) : Type :=
  | Ok (a : A)
  | Raise (e : exn).
Arguments Ok {A} a.
Arguments Raise {A} e.

(** Two calls in a row: the second runs on the first one's graph, unless the
    first raised. *)
Definition and_then {A B} (r : result A) (f : A -> result B) : result B :=
  match r with
  | Ok a => f a
  | Raise e => Raise e
  end.

(** The names the specification gives to the failed assertions. *)
Definition PrecursorMissing : exn := AssertionError "User id does not exist!".
Definition InvalidArgument : exn := AssertionError "Hashtag shouldn't be empty!".
Definition BadEdgeType : exn :=
  AssertionError "Edge type must be R(etweet) or M(ention) or Q(uote)".
Definition UntypedEdge : exn := AssertionError "Edge must have at least one type!".

(** ** Python strings: the [in] operator is a substring test *)

Fixpoint starts_with (p s : string) : bool :=
  match p with
  | EmptyString => true
  | String a p' =>
      match s with
      | EmptyString => false
      | String b s' => Ascii.eqb a b && starts_with p' s'
      end
  end.

(** [str_contains sub s] is Python's [sub in s] on two strings. *)
Fixpoint str_contains (sub s : string) : bool :=
  starts_with sub s ||
  match s with
  | EmptyString => false
  | String _ s' => str_contains sub s'
  end.

(** [x in l] for a list of strings. *)
Definition str_in_list (x : string) (l : list string) : bool :=
  existsb (String.eqb x) l.

(** ** The graph: the fragment of [networkx.DiGraph] in use

    A node's attribute dictionary only ever holds the key ["adoption_time"],
    an edge's the keys ["type"] and ["creation_time"]; an absent key is
    [None]. *)

Record NodeAttr : Type := mkNodeAttr { adoption_time : option Z }.

Record EdgeAttr : Type := mkEdgeAttr {
  type : option string;
  creation_time : option Z
}.

Record DiGraph : Type := mkDiGraph {
  node : gmap Z NodeAttr;
  adj : gmap (Z * Z) EdgeAttr
}.

(** [nx.DiGraph()] *)
Definition empty_graph : DiGraph := mkDiGraph ∅ ∅.

(** [n in G] *)
Definition has_node (n : Z) (g : DiGraph) : bool := bool_decide (is_Some (node g !! n)).

(** [G.add_node(n)] without attributes: a new node gets an empty attribute
    dictionary, an existing one keeps its own. *)
Definition add_node (n : Z) (g : DiGraph) : DiGraph :=
  match node g !! n with
  | Some _ => g
  | None => mkDiGraph (<[n := mkNodeAttr None]> (node g)) (adj g)
  end.

(** [G.add_edge(u, v, type=ty, creation_time=ts)]: missing endpoints are
    added, and the two attributes given are written into the edge's
    dictionary, which has no other key. *)
Definition add_edge (u v : Z) (ty : string) (ts : Z) (g : DiGraph) : DiGraph :=
  let g' := add_node v (add_node u g) in
  mkDiGraph (node g')
            (<[(u, v) := mkEdgeAttr (Some ty) (Some ts)]> (adj g')).

(** Assignments into the attribute dictionaries. *)
Definition set_adoption_time (n : Z) (ts : Z) (g : DiGraph) : DiGraph :=
  mkDiGraph (<[n := mkNodeAttr (Some ts)]> (node g)) (adj g).

Definition set_edge (u v : Z) (e : EdgeAttr) (g : DiGraph) : DiGraph :=
  mkDiGraph (node g) (<[(u, v) := e]> (adj g)).

(** ** GraphBuilder *)

(** [add_user(user_id, timestamp=None)].  The identifier is an [int] at every
    call site, so the [isinstance] assertion holds by typing. *)
Definition add_user (user_id : Z) (timestamp : option Z) (g : DiGraph)
  : result DiGraph :=
  let g1 := if has_node user_id g then g else add_node user_id g in
  match timestamp with
  | None => Ok g1
  | Some ts =>
      match node g1 !! user_id with
      | None => Raise (KeyError "user_id")
      | Some attr =>
          match adoption_time attr with
          | None => Ok (set_adoption_time user_id ts g1)
          | Some old =>
              if ts <? old then Ok (set_adoption_time user_id ts g1) else Ok g1
          end
      end
  end.

Definition edge_kinds : list string := ["R"; "M"; "Q"; "C"].

(** [add_relation(start, end, edge_type, timestamp)] *)
Definition add_relation (start end_ : Z) (edge_type : string) (timestamp : Z)
    (g : DiGraph) : result DiGraph :=
  if negb (has_node start g && has_node end_ g) then Raise PrecursorMissing
  else if negb (str_in_list edge_type edge_kinds) then Raise BadEdgeType
  else
    match adj g !! (start, end_) with
    | Some e =>                            (* network.has_edge(start, end) holds *)
        match type e with
        | None => Raise UntypedEdge
        | Some ty =>
            (* Update timestamp if it is necessary *)
            let e1 :=
              match creation_time e with
              | None => mkEdgeAttr (type e) (Some timestamp)
              | Some old =>
                  if timestamp <? old then mkEdgeAttr (type e) (Some timestamp)
                  else e
              end in
            if str_contains edge_type ty then Ok (set_edge start end_ e1 g)
            else Ok (set_edge start end_
                       (mkEdgeAttr (Some (ty +:+ edge_type)) (creation_time e1)) g)
        end
    | None => Ok (add_edge start end_ edge_type timestamp g)
    end.

(** ** Tweet documents

    The store hands out JSON-like documents.  [pyval] has the forms of value
    that occur in the fields the program reads; a dictionary is a list of
    bindings read by its first binding of a key. *)

Inductive pyval : Type :=
  | VNone
  | VInt (z : Z)
  | VStr (s : string)
  | VList (l : list pyval)
  | VDict (d : list (string * pyval)).

Fixpoint dict_get (k : string) (d : list (string * pyval)) : option pyval :=
  match d with
  | [] => None
  | (k', v) :: d' => if String.eqb k k' then Some v else dict_get k d'
  end.

(** [x == y]: structural, and blind to the order of a dictionary's keys. *)
Fixpoint py_eq (x y : pyval) {struct x} : bool :=
  match x, y with
  | VNone, VNone => true
  | VInt a, VInt b => a =? b
  | VStr a, VStr b => String.eqb a b
  | VList xs, VList ys =>
      (fix go (xs ys : list pyval) {struct xs} : bool :=
         match xs, ys with
         | [], [] => true
         | x' :: xs', y' :: ys' => py_eq x' y' && go xs' ys'
         | _, _ => false
         end) xs ys
  | VDict d1, VDict d2 =>
      Nat.eqb (length d1) (length d2) &&
      (fix all (d : list (string * pyval)) : bool :=
         match d with
         | [] => true
         | (k, v) :: d' =>
             match dict_get k d2 with
             | Some v' => py_eq v v'
             | None => false
             end && all d'
         end) d1
  | _, _ => false
  end.

(** [v[key]] for a string key. *)
Definition py_getitem (v : pyval) (key : string) : result pyval :=
  match v with
  | VDict d =>
      match dict_get key d with
      | Some x => Ok x
      | None => Raise (KeyError key)
      end
  | _ => Raise TypeError
  end.

(** [x in v] *)
Definition py_in (x v : pyval) : result bool :=
  match v with
  | VList l => Ok (existsb (py_eq x) l)
  | VDict d =>
      match x with
      | VStr k => Ok (bool_decide (is_Some (dict_get k d)))
      | VNone | VInt _ => Ok false
      | VList _ | VDict _ => Raise TypeError        (* unhashable *)
      end
  | VStr s =>
      match x with
      | VStr sub => Ok (str_contains sub s)
      | _ => Raise TypeError
      end
  | VNone | VInt _ => Raise TypeError
  end.

(** The elements a [for] loop over [v] visits. *)
Fixpoint chars (s : string) : list pyval :=
  match s with
  | EmptyString => []
  | String c s' => VStr (String c EmptyString) :: chars s'
  end.

Definition py_iter (v : pyval) : result (list pyval) :=
  match v with
  | VList l => Ok l
  | VDict d => Ok (map (fun kv => VStr (fst kv)) d)
  | VStr s => Ok (chars s)
  | VNone | VInt _ => Raise TypeError
  end.

(** ** The world the scan runs in *)

Inductive log_record : Type :=
  | InfoQueryBegin                          (* '\nQuery Tweets Begin' *)
  | InfoQueryString (hashtag : string)      (* 'Query string is ' + str(query_string) *)
  | ErrorAbnormalMention (tweet_id : pyval) (* "Abnormal mention id in tweet {0}" *).

Definition is_anomaly (r : log_record) : bool :=
  match r with ErrorAbnormalMention _ => true | _ => false end.

Inductive store_access : Type :=
  | FindTweets (hashtag : string)           (* database.tweets.find(query_string) *)
  | FindOneSocialNetwork (userid : Z)       (* database.social_network.find_one(..) *).

Record World : Type := mkWorld {
  network : DiGraph;
  log : list log_record;
  store_trace : list store_access;
  stdout : list string
}.

Definition initial_world : World := mkWorld empty_graph [] [] [].

(** Computations: the world is threaded through, and an exception leaves the
    world as it was when it was raised. *)
Definition M (A : Type) : Type := World -> result A * World.

Definition ret {A} (a : A) : M A := fun w => (Ok a, w).
Definition raise {A} (e : exn) : M A := fun w => (Raise e, w).
Definition bind {A B} (m : M A) (k : A -> M B) : M B :=
  fun w => match m w with
           | (Ok a, w') => k a w'
           | (Raise e, w') => (Raise e, w')
           end.

Declare Scope py_scope.
Delimit Scope py_scope with py.
Notation "'let*' x ':=' m 'in' k" := (bind m (fun x => k))
  (at level 10, x name, m at level 100, k at level 200) : py_scope.
Notation "m '>>' k" := (bind m (fun _ => k))
  (at level 100, k at level 200, right associativity) : py_scope.
Local Open Scope py_scope.

Definition lift {A} (r : result A) : M A := fun w => (r, w).

(** A call that works on the module-level [network]. *)
Definition on_network (f : DiGraph -> result DiGraph) : M unit :=
  fun w => match f (network w) with
           | Ok g => (Ok tt, mkWorld g (log w) (store_trace w) (stdout w))
           | Raise e => (Raise e, w)
           end.

Definition logging (r : log_record) : M unit :=
  fun w => (Ok tt, mkWorld (network w) (log w ++ [r]) (store_trace w) (stdout w)).

Definition access_store (a : store_access) : M unit :=
  fun w => (Ok tt, mkWorld (network w) (log w) (store_trace w ++ [a]) (stdout w)).

Definition print (s : string) : M unit :=
  fun w => (Ok tt, mkWorld (network w) (log w) (store_trace w) (stdout w ++ [s])).

(** [for x in l: body(x)] *)
Fixpoint for_each {A} (l : list A) (body : A -> M unit) : M unit :=
  match l with
  | [] => ret tt
  | x :: l' => body x >> for_each l' body
  end.

(** ** TweetProcessor *)

Definition QUOTE_FIELD : string := "quoted_status".
Definition RETWEET_FIELD : string := "retweeted_status".
Definition REPLY_FIELD : string := "in_reply_to_user_id".

(** Two conversions of the Python library are taken as they come: [int] on a
    string, and the epoch seconds of a time stamp written in the format
    ["%a %b %d %H:%M:%S %z %Y"].  [None] stands for a [ValueError]. *)
Class PyLib : Type := mkPyLib {
  int_of_str : string -> option Z;
  strptime_epoch : string -> option Z
}.

Section Scan.

Context {lib : PyLib}.

(** The [tweets] collection of the store, in the order the cursor yields it. *)
Variable tweets : list pyval.

(** [int(v)] *)
Definition py_int (v : pyval) : result Z :=
  match v with
  | VInt z => Ok z
  | VStr s =>
      match int_of_str s with
      | Some z => Ok z
      | None => Raise ValueError
      end
  | VNone | VList _ | VDict _ => Raise TypeError
  end.

(** [int(datetime.datetime.strptime(v, "%a %b %d %H:%M:%S %z %Y").timestamp())] *)
Definition py_timestamp (v : pyval) : result Z :=
  match v with
  | VStr s =>
      match strptime_epoch s with
      | Some z => Ok z
      | None => Raise ValueError
      end
  | _ => Raise TypeError
  end.

(** Modelled from the spec: the store's filter
    [{"entities.hashtags.text": hashtag}] keeps the records whose hashtag
    set contains the topic, compared as an exact, case-sensitive match of
    the hashtag text. *)
Definition has_hashtag (hashtag : string) (tweet : pyval) : bool :=
  match tweet with
  | VDict d =>
      match dict_get "entities" d with
      | Some (VDict e) =>
          match dict_get "hashtags" e with
          | Some (VList hs) =>
              existsb (fun h =>
                         match h with
                         | VDict hd =>
                             match dict_get "text" hd with
                             | Some (VStr t) => String.eqb t hashtag
                             | _ => false
                             end
                         | _ => false
                         end) hs
          | _ => false
          end
      | _ => false
      end
  | _ => false
  end.

Definition find_tweets (hashtag : string) : list pyval :=
  List.filter (has_hashtag hashtag) tweets.

(** [v[k1][k2]] *)
Definition getitem2 (v : pyval) (k1 k2 : string) : result pyval :=
  match py_getitem v k1 with
  | Ok x => py_getitem x k2
  | Raise e => Raise e
  end.

(** [int(v[k1][k2])] *)
Definition int_at2 (v : pyval) (k1 k2 : string) : result Z :=
  match getitem2 v k1 k2 with
  | Ok x => py_int x
  | Raise e => Raise e
  end.

(** The [try] of the mention loop: [int(mentioned_user["id"])]. *)
Definition mention_id (mentioned_user : pyval) : result Z :=
  match py_getitem mentioned_user "id" with
  | Ok x => py_int x
  | Raise e => Raise e
  end.

(** The retweet and the quote branch: the same statements, on the embedded
    record under [field] and with the edge kind [kind].  The value is the
    embedded record's mention list, or the list passed when the field is
    absent. *)
Definition embedded_branch (field kind : string) (tweet : pyval)
    (user_id create_at : Z) (mentions0 : pyval) : M pyval :=
  let* present := lift (py_in (VStr field) tweet) in
  if present then
    let* original_tweet_id :=
      lift (match py_getitem tweet field with
            | Ok st => int_at2 st "user" "id"
            | Raise e => Raise e
            end) in
    on_network (add_user original_tweet_id None) >>
    on_network (add_relation user_id original_tweet_id kind create_at) >>
    lift (match py_getitem tweet field with
          | Ok st => getitem2 st "entities" "user_mentions"
          | Raise e => Raise e
          end)
  else ret mentions0.

(** One turn of [for mentioned_user in tweet_mentions]. *)
Definition mention_body (tweet : pyval) (user_id create_at : Z)
    (original_retweet_mentions original_quote_mentions : pyval)
    (mentioned_user : pyval) : M unit :=
  match mention_id mentioned_user with
  | Raise _ =>
      (* except: log and continue *)
      let* tweet_id := lift (py_getitem tweet "id") in
      logging (ErrorAbnormalMention tweet_id)
  | Ok mentioned_user_id =>
      let* in_retweet := lift (py_in mentioned_user original_retweet_mentions) in
      let* counted :=
        (if in_retweet then ret true
         else lift (py_in mentioned_user original_quote_mentions)) in
      if counted then ret tt
      else
        on_network (add_user mentioned_user_id None) >>
        on_network (add_relation user_id mentioned_user_id "M" create_at) >>
        (* Count mention *)
        access_store (FindOneSocialNetwork user_id) >>
        access_store (FindOneSocialNetwork mentioned_user_id)
  end.

Definition mention_branch (tweet : pyval) (user_id create_at : Z)
    (original_retweet_mentions original_quote_mentions : pyval) : M unit :=
  let* entities := lift (py_getitem tweet "entities") in
  let* present := lift (py_in (VStr "user_mentions") entities) in
  if present then
    let* tweet_mentions := lift (getitem2 tweet "entities" "user_mentions") in
    let* l := lift (py_iter tweet_mentions) in
    for_each l (mention_body tweet user_id create_at
                  original_retweet_mentions original_quote_mentions)
  else ret tt.

Definition reply_branch (tweet : pyval) (user_id create_at : Z) : M unit :=
  let* present := lift (py_in (VStr REPLY_FIELD) tweet) in
  if present then
    let* target := lift (py_getitem tweet REPLY_FIELD) in
    match target with
    | VNone => ret tt
    | _ =>
        let* reply_user_id := lift (py_int target) in
        on_network (add_user reply_user_id None) >>
        let* target' := lift (py_getitem tweet REPLY_FIELD) in
        let* end_ := lift (py_int target') in
        on_network (add_relation user_id end_ "C" create_at)
    end
  else ret tt.

(** The body of [for tweet in database.tweets.find(query_string)]. *)
Definition process_tweet (tweet : pyval) : M unit :=
  (* Add user *)
  let* user_id := lift (int_at2 tweet "user" "id") in
  let* created := lift (py_getitem tweet "created_at") in
  let* create_at := lift (py_timestamp created) in
  on_network (add_user user_id (Some create_at)) >>
  let* original_retweet_mentions :=
    embedded_branch RETWEET_FIELD "R" tweet user_id create_at (VList []) in
  let* original_quote_mentions :=
    embedded_branch QUOTE_FIELD "Q" tweet user_id create_at (VList []) in
  mention_branch tweet user_id create_at
    original_retweet_mentions original_quote_mentions >>
  reply_branch tweet user_id create_at.

(** [query_tweets(hashtag)] *)
Definition query_tweets (hashtag : string) : M unit :=
  if String.eqb hashtag "" then raise InvalidArgument
  else
    logging InfoQueryBegin >>
    logging (InfoQueryString hashtag) >>
    access_store (FindTweets hashtag) >>
    for_each (find_tweets hashtag) process_tweet >>
    print "Done".

End Scan.

(** ** What is read off a graph *)

(** [network.node[u]["adoption_time"]], when the node and the key exist. *)
Definition adoption (g : DiGraph) (u : Z) : option Z :=
  match node g !! u with
  | Some attr => adoption_time attr
  | None => None
  end.

(** [network[a][b]["type"]], when the edge and the key exist. *)
Definition edge_type_of (g : DiGraph) (a b : Z) : option string :=
  match adj g !! (a, b) with
  | Some e => type e
  | None => None
  end.

(** The kinds a stored type attribute stands for. *)
Definition kinds_of (ty : string) : list string :=
  List.filter (fun k => str_contains k ty) edge_kinds.

(** [edge a -> b carries kind k] *)
Definition edge_has_kind (g : DiGraph) (a b : Z) (k : string) : bool :=
  match edge_type_of g a b with
  | Some ty => str_contains k ty
  | None => false
  end.

(** The number of edges stored for the ordered pair [p]. *)
Definition edge_count (g : DiGraph) (p : Z * Z) : nat :=
  length (filter (fun kv => fst kv = p) (map_to_list (adj g))).

(** ** The states of the graph

    One call of the GraphBuilder that returns is a step; the graph of a run
    is reached from the empty one by steps. *)

Inductive step : DiGraph -> DiGraph -> Prop :=
  | step_add_user u ts g g' :
      add_user u ts g = Ok g' -> step g g'
  | step_add_relation a b k t g g' :
      add_relation a b k t g = Ok g' -> step g g'.

Inductive reachable : DiGraph -> Prop :=
  | reach_empty : reachable empty_graph
  | reach_step g g' : reachable g -> step g g' -> reachable g'.

(** Every edge has a type attribute, which stands for at least one kind. *)
Definition edges_typed (g : DiGraph) : Prop :=
  forall p e, adj g !! p = Some e ->
    exists ty, type e = Some ty /\ kinds_of ty <> [].

(** How a graph may change: adoption and creation times that are set stay
    set and do not grow, edges stay, and a type attribute keeps what it
    contains. *)
Definition evolves (g g' : DiGraph) : Prop :=
  (forall u t, adoption g u = Some t ->
     exists t', adoption g' u = Some t' /\ t' <= t) /\
  (forall p e, adj g !! p = Some e ->
     exists e', adj g' !! p = Some e' /\
       (forall ty, type e = Some ty ->
          exists ty', type e' = Some ty' /\
            (forall k, str_contains k ty = true -> str_contains k ty' = true) /\
            (length (kinds_of ty) <= length (kinds_of ty'))%nat) /\
       (forall t, creation_time e = Some t ->
          exists t', creation_time e' = Some t' /\ t' <= t)).

(** The two merges the upserts perform. *)
Definition merge_time (old : option Z) (t : Z) : Z :=
  match old with
  | None => t
  | Some o => if t <? o then t else o
  end.

Definition merge_type (ty k : string) : string :=
  if str_contains k ty then ty else ty +:+ k.

(** Any number of steps. *)
Inductive steps (g : DiGraph) : DiGraph -> Prop :=
  | steps_refl : steps g g
  | steps_next g' g'' : steps g g' -> step g' g'' -> steps g g''.

(** ** A tweet record as the program reads it

    The fields [process_tweet] reads from a record, once converted: the
    author, the creation time, the record's own identifier (used in the log
    message), the author and the mention list of an embedded retweeted and
    quoted record, the top-level mention list (absent when the key is), and
    the user replied to. *)

Record TweetView : Type := mkTweetView {
  author : Z;
  created : Z;
  ident : pyval;
  retweeted : option (Z * list pyval);
  quoted : option (Z * list pyval);
  mentioned : option (list pyval);
  reply_to : option Z
}.

Definition embedded_view {lib : PyLib} (field : string) (d : list (string * pyval))
    (ev : option (Z * list pyval)) : Prop :=
  match ev with
  | None => dict_get field d = None
  | Some (o, ms) =>
      exists st, dict_get field d = Some st /\
        int_at2 st "user" "id" = Ok o /\
        getitem2 st "entities" "user_mentions" = Ok (VList ms)
  end.

(** [views tweet v]: the document [tweet] has the fields of [v], each of a
    form its conversion accepts.  Nothing is asked of the entries of the
    mention lists. *)
Definition views {lib : PyLib} (tweet : pyval) (v : TweetView) : Prop :=
  exists d, tweet = VDict d /\
    int_at2 tweet "user" "id" = Ok (author v) /\
    (exists c, dict_get "created_at" d = Some c /\ py_timestamp c = Ok (created v)) /\
    dict_get "id" d = Some (ident v) /\
    embedded_view RETWEET_FIELD d (retweeted v) /\
    embedded_view QUOTE_FIELD d (quoted v) /\
    (exists ents, dict_get "entities" d = Some (VDict ents) /\
       match mentioned v with
       | None => dict_get "user_mentions" ents = None
       | Some l => dict_get "user_mentions" ents = Some (VList l)
       end) /\
    match reply_to v with
    | None => dict_get REPLY_FIELD d = None \/ dict_get REPLY_FIELD d = Some VNone
    | Some r =>
        exists x, dict_get REPLY_FIELD d = Some x /\ x <> VNone /\ py_int x = Ok r
    end.

(** The mention lists of the embedded records: the "already counted" ones. *)
Definition counted_lists (v : TweetView) : list pyval * list pyval :=
  (match retweeted v with Some (_, ms) => ms | None => [] end,
   match quoted v with Some (_, ms) => ms | None => [] end).

(** The entry [m] is, verbatim, in one of the already counted lists. *)
Definition counted (v : TweetView) (m : pyval) : bool :=
  existsb (py_eq m) (fst (counted_lists v)) ||
  existsb (py_eq m) (snd (counted_lists v)).

(** The entry's user id does not convert. *)
Definition malformed {lib : PyLib} (m : pyval) : bool :=
  match mention_id m with
  | Ok _ => false
  | Raise _ => true
  end.

(** The entry [m] of the top-level mention list names user [x] and is not
    already counted: the slots that make a mention edge. *)
Definition fresh_mention {lib : PyLib} (v : TweetView) (m : pyval) (x : Z) : Prop :=
  mention_id m = Ok x /\ counted v m = false.

(** A world changes quietly when nothing is logged, the graph moves by steps
    of the builder, and no edge gains or loses the mention kind. *)
Definition quiet (w w' : World) : Prop :=
  log w' = log w /\
  steps (network w) (network w') /\
  forall a b, edge_has_kind (network w') a b "M" = edge_has_kind (network w) a b "M".

(** What the mention loop over the list [l] of a record viewed as [v] does to
    a world: the graph moves by steps of the builder; one anomaly is logged
    for each entry whose id does not convert; an edge that carries the
    mention kind carried it before or goes from the author to the user of a
    fresh entry; and every fresh entry has its mention edge. *)
Definition mentions_settled {lib : PyLib} (v : TweetView) (l : list pyval)
    (w w' : World) : Prop :=
  steps (network w) (network w') /\
  log w' = log w ++ map (fun _ => ErrorAbnormalMention (ident v))
                        (List.filter malformed l) /\
  (forall a b, edge_has_kind (network w') a b "M" = true ->
     edge_has_kind (network w) a b "M" = true \/
     (a = author v /\ exists m, In m l /\ fresh_mention v m b)) /\
  (forall m x, In m l -> fresh_mention v m x ->
     edge_has_kind (network w') (author v) x "M" = true).

(** A computation only ever adds to the trace of store accesses. *)
Definition extends_trace {A} (m : M A) : Prop :=
  forall w r w', m w = (r, w') ->
    exists more, store_trace w' = store_trace w ++ more.

(** The anomalies in a log. *)
Definition anomalies (l : list log_record) : list log_record :=
  List.filter is_anomaly l.

(** ** Sample graphs *)

(** Two users who have not adopted yet, and no edge. *)
Definition two_users : DiGraph :=
  mkDiGraph (<[2 := mkNodeAttr None]> (<[1 := mkNodeAttr None]> ∅)) ∅.

(** The same two users after user 1 quoted user 2 at time 0. *)
Definition two_users_quoted : DiGraph :=
  mkDiGraph (node two_users) (<[(1, 2) := mkEdgeAttr (Some "Q") (Some 0)]> ∅).

(** ** Sample records *)

Definition tweet_doc (id uid : Z) (created_at hashtag : string)
    (mentions : list pyval) (more : list (string * pyval)) : pyval :=
  VDict ([("id", VInt id);
          ("created_at", VStr created_at);
          ("user", VDict [("id", VInt uid)]);
          ("entities", VDict [("hashtags", VList [VDict [("text", VStr hashtag)]]);
                              ("user_mentions", VList mentions)])]
         ++ more).

Definition embedded_doc (uid : Z) (mentions : list pyval) : pyval :=
  VDict [("user", VDict [("id", VInt uid)]);
         ("entities", VDict [("user_mentions", VList mentions)])].

Definition mention_doc (id : pyval) (screen_name : string) (from to : Z) : pyval :=
  VDict [("screen_name", VStr screen_name);
         ("id", id);
         ("indices", VList [VInt from; VInt to])].

(** The records of the end-to-end scenario: user 100 posts, user 200
    retweets that post; [c1] and [c2] are their time stamps as text. *)
Definition first_post (c1 : string) : pyval :=
  tweet_doc 1 100 c1 "X" [] [(REPLY_FIELD, VNone)].

Definition the_retweet (c2 : string) : pyval :=
  tweet_doc 2 200 c2 "X" []
    [(RETWEET_FIELD, embedded_doc 100 []); (REPLY_FIELD, VNone)].

Definition scenario_graph : DiGraph :=
  mkDiGraph (<[200 := mkNodeAttr (Some 2000)]> (<[100 := mkNodeAttr (Some 1000)]> ∅))
            (<[(200, 100) := mkEdgeAttr (Some "R") (Some 2000)]> ∅).

(** An instance of the library conversions, enough to run the samples:
    plain decimal numerals, and the two time stamps of the scenario. *)
Fixpoint decimal_digits (s : string) (acc : Z) : option Z :=
  match s with
  | EmptyString => Some acc
  | String c s' =>
      let n := Z.of_nat (nat_of_ascii c) in
      if (48 <=? n) && (n <=? 57) then decimal_digits s' (10 * acc + (n - 48))
      else None
  end.

Definition decimal_of_str (s : string) : option Z :=
  match s with
  | EmptyString => None
  | _ => decimal_digits s 0
  end.

Definition two_stamps (s : string) : option Z :=
  if String.eqb s "Thu Jan 01 00:16:40 +0000 1970" then Some 1000
  else if String.eqb s "Thu Jan 01 00:33:20 +0000 1970" then Some 2000
  else None.

Definition sample_lib : PyLib := mkPyLib decimal_of_str two_stamps.

Definition stamp_1000 : string := "Thu Jan 01 00:16:40 +0000 1970".
Definition stamp_2000 : string := "Thu Jan 01 00:33:20 +0000 1970".

(** A post by user 300 that mentions a user without an id and user 400. *)
Definition ghost_mention : pyval := mention_doc VNone "ghost" 0 6.
Definition bob_mention : pyval := mention_doc (VInt 400) "bob" 7 11.

Definition post_with_ghost : pyval :=
  tweet_doc 7 300 stamp_1000 "X" [ghost_mention; bob_mention] [].

Definition post_with_ghost_view : TweetView :=
  mkTweetView 300 1000 (VInt 7) None None (Some [ghost_mention; bob_mention]) None.

(** The same post without its own ["id"] field, which the log message reads. *)
Definition post_without_id : pyval :=
  VDict [("created_at", VStr stamp_1000);
         ("user", VDict [("id", VInt 300)]);
         ("entities", VDict [("hashtags", VList [VDict [("text", VStr "X")]]);
                             ("user_mentions", VList [ghost_mention; bob_mention])])].

(** A retweet by user 200 of a post by user 100 that mentions user 400; the
    mention entry comes again, verbatim, in the retweet's own list. *)
Definition retweet_with_mention : pyval :=
  tweet_doc 8 200 stamp_2000 "X" [bob_mention]
    [(RETWEET_FIELD, embedded_doc 100 [bob_mention])].

Definition retweet_with_mention_view : TweetView :=
  mkTweetView 200 2000 (VInt 8) (Some (100, [bob_mention])) None
    (Some [bob_mention]) None.

(** ** Further readings of a graph, and series of calls *)

(** [network[a][b]["creation_time"]], when the edge and the key exist. *)
Definition edge_time_of (g : DiGraph) (a b : Z) : option Z :=
  match adj g !! (a, b) with
  | Some e => creation_time e
  | None => None
  end.

(** A series of [add_relation] calls between the same two users, each with
    its kind and its time stamp; the series stops at the first call that
    raises. *)
Fixpoint add_relations (a b : Z) (cs : list (string * Z)) (g : DiGraph)
  : result DiGraph :=
  match cs with
  | [] => Ok g
  | (k, t) :: cs' => and_then (add_relation a b k t g) (add_relations a b cs')
  end.

(** The letters of the four kinds. *)
Definition kind_letters : list ascii := ["R"; "M"; "Q"; "C"]%char.

(** An edge as [add_relation] makes them: a type attribute that is a
    non-empty string of kind letters, none of them twice, and a creation
    time. *)
Definition edge_well_formed (e : EdgeAttr) : Prop :=
  exists ty t,
    e = mkEdgeAttr (Some ty) (Some t) /\
    ty <> "" /\
    NoDup (String.list_ascii_of_string ty) /\
    Forall (fun c => In c kind_letters) (String.list_ascii_of_string ty).

Definition edges_well_formed (g : DiGraph) : Prop :=
  forall p e, adj g !! p = Some e -> edge_well_formed e.

(** Every edge goes from a node to a node. *)
Definition edges_between_nodes (g : DiGraph) : Prop :=
  forall a b e, adj g !! (a, b) = Some e ->
    has_node a g = true /\ has_node b g = true.

(** ** What a run may do to the world *)

(** Every run of [m], whether it returns or raises, takes a world to one
    that [R] relates to it. *)
Definition moves {A} (R : World -> World -> Prop) (m : M A) : Prop :=
  forall w r w', m w = (r, w') -> R w w'.

(** What the scan may do: the graph moves by steps of the builder, and the
    log gains anomalies only. *)
Definition scan_frame (w w' : World) : Prop :=
  steps (network w) (network w') /\
  exists l, log w' = log w ++ l /\ Forall (fun r => is_anomaly r = true) l.

(** What processing a record of author [uid] may do: besides the above, the
    edges that do not start at [uid] and the adoption times of the other
    users are as before, and nothing is printed. *)
Definition record_frame (uid : Z) (w w' : World) : Prop :=
  scan_frame w w' /\
  (forall a b, a <> uid -> adj (network w') !! (a, b) = adj (network w) !! (a, b)) /\
  (forall u, u <> uid -> adoption (network w') u = adoption (network w) u) /\
  stdout w' = stdout w.

(** The world once [query_tweets] has logged its two lines and sent its
    query, before the first record. *)
Definition scan_started (hashtag : string) (w : World) : World :=
  mkWorld (network w)
          ((log w ++ [InfoQueryBegin]) ++ [InfoQueryString hashtag])
          (store_trace w ++ [FindTweets hashtag])
          (stdout w).

(** No adoption time changes. *)
Definition adoption_kept (w w' : World) : Prop :=
  forall u, adoption (network w') u = adoption (network w) u.

(** A retweet by user 200 of a post by user 100 that mentions user 400.  As
    the text of a retweet starts with "RT @author: ", the top-level list
    names the original author too, and names user 400 at other indices than
    the embedded list does. *)
Definition alice_mention : pyval := mention_doc (VInt 100) "alice" 3 9.
Definition bob_mention_shifted : pyval := mention_doc (VInt 400) "bob" 18 22.

Definition retweet_shifted : pyval :=
  tweet_doc 9 200 stamp_2000 "X" [alice_mention; bob_mention_shifted]
    [(RETWEET_FIELD, embedded_doc 100 [bob_mention])].

Definition retweet_shifted_view : TweetView :=
  mkTweetView 200 2000 (VInt 9) (Some (100, [bob_mention])) None
    (Some [alice_mention; bob_mention_shifted]) None.

(** A post without any interaction, and no mention list at all. *)
Definition bare_post : pyval :=
  VDict [("id", VInt 5);
         ("created_at", VStr stamp_1000);
         ("user", VDict [("id", VInt 100)]);
         ("entities", VDict [("hashtags", VList [VDict [("text", VStr "X")]])])].

Definition bare_post_view : TweetView :=
  mkTweetView 100 1000 (VInt 5) None None None None.

(** ** The program run as a script

    The lines the script writes go to the same log file as those of the
    scan; each is kept with the number of lines of the scan written before
    it.  [nx.write_graphml] is an opaque writer that may raise, as on a
    destination that cannot be written: whether it takes a file name and a
    graph is a parameter, [writer_accepts].  A file counts as written, under
    its name and with the graph handed over, when the writer returns. *)

Inductive main_record : Type :=
  | InfoQueryFor (tv_show : string)            (* 'Query begin\n hashtag:{0}' *)
  | InfoNetworkSize (nodes edges : nat)        (* "Network has {0} nodes, {1} edges" *).

Record Session : Type := mkSession {
  world : World;
  main_log : list (nat * main_record);
  written : list (string * DiGraph)
}.

(** How a run of the script ends: at its last line, with the exception of the
    scan, or with the exception of the writer. *)
Inductive script_outcome : Type :=
  | Completed
  | ScanRaised (e : exn)
  | WriterRaised.

(** The state the script starts in: [network = nx.DiGraph()], nothing logged
    and nothing written. *)
Definition initial_session : Session := mkSession initial_world [] [].

(** [logging.info] called from the script. *)
Definition main_logging (r : main_record) (s : Session) : Session :=
  mkSession (world s) (main_log s ++ [(length (log (world s)), r)]) (written s).

(** [draw_and_save(filename)]: [true] when [nx.write_graphml] returned,
    [false] when it raised. *)
Definition draw_and_save (writer_accepts : string -> DiGraph -> bool)
    (filename : string) (s : Session) : bool * Session :=
  if writer_accepts filename (network (world s)) then
    (true, mkSession (world s) (main_log s)
                     (written s ++ [(filename, network (world s))]))
  else (false, s).

(** [G.number_of_nodes()] and [G.number_of_edges()] *)
Definition number_of_nodes (g : DiGraph) : nat := size (node g).
Definition number_of_edges (g : DiGraph) : nat := size (adj g).

(** The body of [if __name__ == "__main__":], for the hashtag argument
    [tv_show] and the collection [tweets] of the store. *)
Definition main {lib : PyLib} (writer_accepts : string -> DiGraph -> bool)
    (tweets : list pyval) (tv_show : string) (s : Session)
  : script_outcome * Session :=
  let s1 := main_logging (InfoQueryFor tv_show) s in
  match query_tweets tweets tv_show (world s1) with
  | (Raise e, w') => (ScanRaised e, mkSession w' (main_log s1) (written s1))
  | (Ok _, w') =>
      let s2 := mkSession w' (main_log s1) (written s1) in
      let s3 := main_logging (InfoNetworkSize (number_of_nodes (network w'))
                                              (number_of_edges (network w'))) s2 in
      match draw_and_save writer_accepts (tv_show +:+ ".graphml") s3 with
      | (true, s4) => (Completed, s4)
      | (false, s4) => (WriterRaised, s4)
      end
  end.

(** A retweet by user 200 whose own mention list has an entry without id and
    the entry of user 400 that the retweeted record has too. *)
Definition retweet_with_ghost : pyval :=
  tweet_doc 10 200 stamp_2000 "X" [ghost_mention; bob_mention]
    [(RETWEET_FIELD, embedded_doc 100 [bob_mention])].

(** A file system without the directory [a]: the writer takes the names
    that have no slash. *)
Definition no_slash (filename : string) (g : DiGraph) : bool :=
  negb (str_contains "/" filename).

(** A world around a graph, with nothing logged, asked or printed yet. *)
Definition world_of (g : DiGraph) : World := mkWorld g [] [] [].

(** Two stores: one whose records have the expected form, and one that
    starts with a record the scan cannot finish. *)
Definition good_store : list pyval := [post_with_ghost; retweet_shifted; bare_post].
Definition bad_store : list pyval :=
  [first_post stamp_1000; post_without_id; the_retweet stamp_2000].

(** * Proofs *)

(** ** Strings *)

Lemma starts_with_app p s x :
  starts_with p s = true -> starts_with p (s +:+ x) = true.
Proof.
  revert s; induction p as [|a p IH]; intros s H; [done|].
  destruct s as [|b s]; simpl in *; [done|].
  apply andb_true_iff in H as [-> H]. simpl. by apply IH.
Qed.

Lemma str_contains_app sub s x :
  str_contains sub s = true -> str_contains sub (s +:+ x) = true.
Proof.
  induction s as [|b s IH]; simpl; intros H.
  - rewrite orb_false_r in H. destruct sub; [|done].
    by destruct x.
  - apply orb_true_iff in H as [H|H].
    + apply (starts_with_app _ (String b s) x) in H.
      change (String b s +:+ x) with (String b (s +:+ x)) in H.
      by rewrite H.
    + rewrite (IH H). apply orb_true_r.
Qed.

Lemma str_contains_char_app c c' s :
  str_contains (String c "") (s +:+ String c' "")
  = str_contains (String c "") s || Ascii.eqb c c'.
Proof.
  induction s as [|a s IH]; simpl in *.
  - by destruct (Ascii.eqb c c').
  - rewrite IH. destruct (Ascii.eqb c a); simpl; [done|].
    by destruct s.
Qed.

Lemma kind_cases k :
  str_in_list k edge_kinds = true -> k = "R" \/ k = "M" \/ k = "Q" \/ k = "C".
Proof.
  unfold str_in_list, edge_kinds. cbn [existsb].
  rewrite !orb_true_iff, !String.eqb_eq. intros [?|[?|[?|[?|?]]]]; auto; done.
Qed.

Lemma kind_is_char k :
  str_in_list k edge_kinds = true -> exists c, k = String c "".
Proof. intros H. destruct (kind_cases k H) as [-> | [-> | [-> | ->]]]; eauto. Qed.

Lemma str_contains_self_char c s :
  str_contains (String c "") (s +:+ String c "") = true.
Proof.
  rewrite str_contains_char_app.
  rewrite Ascii.eqb_refl. apply orb_true_r.
Qed.

Lemma merge_type_keeps sub ty k :
  str_contains sub ty = true -> str_contains sub (merge_type ty k) = true.
Proof.
  unfold merge_type. destruct (str_contains k ty); [done|]. apply str_contains_app.
Qed.

Lemma merge_type_has ty k :
  str_in_list k edge_kinds = true -> str_contains k (merge_type ty k) = true.
Proof.
  intros [c ->]%kind_is_char. unfold merge_type.
  destruct (str_contains (String c "") ty) eqn:E; [done|].
  apply str_contains_self_char.
Qed.

(** The kinds of a merged type attribute: those it had, and the new one. *)
Lemma merge_type_kind k' ty k :
  str_in_list k edge_kinds = true -> str_in_list k' edge_kinds = true ->
  str_contains k' (merge_type ty k) = str_contains k' ty || String.eqb k' k.
Proof.
  intros [c ->]%kind_is_char [c' ->]%kind_is_char. unfold merge_type.
  assert (String.eqb (String c' "") (String c "") = Ascii.eqb c' c) as ->.
  { simpl. by destruct (Ascii.eqb c' c). }
  destruct (str_contains (String c "") ty) eqn:E.
  - destruct (Ascii.eqb_spec c' c) as [->|]; [by rewrite E|by rewrite orb_false_r].
  - apply str_contains_char_app.
Qed.

Lemma kinds_of_mono ty ty' :
  (forall k, str_contains k ty = true -> str_contains k ty' = true) ->
  (length (kinds_of ty) <= length (kinds_of ty'))%nat.
Proof.
  intros H. unfold kinds_of. generalize edge_kinds as l.
  induction l as [|k l IH]; simpl; [lia|].
  destruct (str_contains k ty) eqn:E.
  - rewrite (H _ E). simpl. lia.
  - destruct (str_contains k ty'); simpl; lia.
Qed.

Lemma kinds_of_nonempty k ty :
  str_in_list k edge_kinds = true -> str_contains k ty = true -> kinds_of ty <> [].
Proof.
  intros Hk Hc Hnil. unfold kinds_of in Hnil.
  assert (In k (List.filter (fun k => str_contains k ty) edge_kinds)) as Hin.
  { apply filter_In. split; [|done].
    unfold str_in_list in Hk. apply existsb_exists in Hk as (x & Hx & ->%String.eqb_eq).
    done. }
  rewrite Hnil in Hin. destruct Hin.
Qed.

Lemma merge_time_le_new old t : merge_time old t <= t.
Proof. unfold merge_time. destruct old as [o|]; [|lia]. destruct (Z.ltb_spec t o); lia. Qed.

Lemma merge_time_le_old o t : merge_time (Some o) t <= o.
Proof. unfold merge_time. destruct (Z.ltb_spec t o); lia. Qed.

Lemma merge_time_min o t : merge_time (Some o) t = Z.min o t.
Proof. unfold merge_time. destruct (Z.ltb_spec t o); lia. Qed.

(** ** The graph operations in closed form *)

Lemma has_node_true n g : has_node n g = true <-> is_Some (node g !! n).
Proof. unfold has_node. apply bool_decide_eq_true. Qed.

Lemma has_node_false n g : has_node n g = false <-> node g !! n = None.
Proof.
  unfold has_node. rewrite bool_decide_eq_false. symmetry. apply eq_None_not_Some.
Qed.

Lemma add_node_present n g : is_Some (node g !! n) -> add_node n g = g.
Proof. intros [a Ha]. unfold add_node. by rewrite Ha. Qed.

Lemma node_attr_eta a : mkNodeAttr (adoption_time a) = a.
Proof. by destruct a. Qed.

(** [add_user] always returns, and writes one node. *)
Lemma add_user_closed u ts g :
  add_user u ts g =
  Ok (mkDiGraph
        (<[u := mkNodeAttr (match ts with
                            | None => adoption g u
                            | Some t => Some (merge_time (adoption g u) t)
                            end)]> (node g))
        (adj g)).
Proof.
  unfold add_user, adoption, has_node, add_node, set_adoption_time, merge_time.
  destruct (node g !! u) as [a|] eqn:Hu.
  - rewrite bool_decide_eq_true_2 by eauto.
    destruct ts as [t|].
    + cbn beta iota. rewrite Hu. destruct (adoption_time a) as [o|] eqn:Ha; [|done].
      destruct (t <? o); [done|].
      rewrite <- Ha, node_attr_eta, insert_id by done. by destruct g.
    + rewrite node_attr_eta, insert_id by done. by destruct g.
  - rewrite bool_decide_eq_false_2 by (by intros [? ?]).
    cbn beta iota.
    destruct ts as [t|]; [|done].
    cbn [node adj]. rewrite lookup_insert_eq. cbn [adoption_time].
    by rewrite insert_insert_eq.
Qed.

Lemma add_user_total u ts g : exists g', add_user u ts g = Ok g'.
Proof. rewrite add_user_closed. eauto. Qed.

Lemma edge_attr_eta e ty t :
  type e = Some ty -> creation_time e = Some t -> e = mkEdgeAttr (Some ty) (Some t).
Proof. destruct e; simpl; congruence. Qed.

(** [add_relation] past its two assertions. *)
Lemma add_relation_closed a b k t g :
  has_node a g = true -> has_node b g = true ->
  str_in_list k edge_kinds = true ->
  add_relation a b k t g =
  match adj g !! (a, b) with
  | None => Ok (mkDiGraph (node g) (<[(a, b) := mkEdgeAttr (Some k) (Some t)]> (adj g)))
  | Some e =>
      match type e with
      | None => Raise UntypedEdge
      | Some ty =>
          Ok (mkDiGraph (node g)
                (<[(a, b) := mkEdgeAttr (Some (merge_type ty k))
                                        (Some (merge_time (creation_time e) t))]>
                   (adj g)))
      end
  end.
Proof.
  intros Ha Hb Hk. unfold add_relation. rewrite Ha, Hb, Hk. cbn [andb negb].
  destruct (adj g !! (a, b)) as [e|] eqn:He.
  - destruct (type e) as [ty|] eqn:Hty; [|done].
    unfold set_edge, merge_type, merge_time.
    destruct (creation_time e) as [old|] eqn:Hold.
    + destruct (t <? old) eqn:Hlt; cbn [type creation_time].
      * by destruct (str_contains k ty).
      * rewrite Hold. destruct (str_contains k ty); [|done].
        by rewrite (edge_attr_eta e ty old).
    + cbn [type creation_time]. by destruct (str_contains k ty).
  - unfold add_edge.
    apply has_node_true in Ha. rewrite (add_node_present a g Ha).
    apply has_node_true in Hb. by rewrite (add_node_present b g Hb).
Qed.

Lemma add_relation_checks a b k t g g' :
  add_relation a b k t g = Ok g' ->
  has_node a g = true /\ has_node b g = true /\ str_in_list k edge_kinds = true.
Proof.
  unfold add_relation.
  destruct (has_node a g); [|done]. destruct (has_node b g); [|done].
  destruct (str_in_list k edge_kinds); done.
Qed.

(** The frame of [add_relation]. *)
Lemma add_relation_frame a b k t g g' :
  add_relation a b k t g = Ok g' ->
  node g' = node g /\ forall p, p <> (a, b) -> adj g' !! p = adj g !! p.
Proof.
  intros H. destruct (add_relation_checks _ _ _ _ _ _ H) as (Ha & Hb & Hk).
  rewrite add_relation_closed in H by done.
  destruct (adj g !! (a, b)) as [e|].
  - destruct (type e); [|done]. injection H as <-. split; [done|].
    intros p Hp. by apply lookup_insert_ne.
  - injection H as <-. split; [done|].
    intros p Hp. by apply lookup_insert_ne.
Qed.

(** The edge [add_relation] leaves between its endpoints. *)
Lemma add_relation_edge a b k t g g' :
  add_relation a b k t g = Ok g' ->
  exists ty, adj g' !! (a, b) =
               Some (mkEdgeAttr (Some ty)
                       (Some (merge_time (match adj g !! (a, b) with
                                          | Some e => creation_time e
                                          | None => None
                                          end) t))) /\
    match edge_type_of g a b with
    | Some ty0 => ty = merge_type ty0 k
    | None => ty = k
    end.
Proof.
  intros H. destruct (add_relation_checks _ _ _ _ _ _ H) as (Ha & Hb & Hk).
  rewrite add_relation_closed in H by done. unfold edge_type_of.
  destruct (adj g !! (a, b)) as [e|].
  - destruct (type e) as [ty|]; [|done]. injection H as <-.
    exists (merge_type ty k). cbn [adj]. by rewrite lookup_insert_eq.
  - injection H as <-. exists k. cbn [adj]. by rewrite lookup_insert_eq.
Qed.

Lemma add_relation_returns a b k t g :
  edges_typed g ->
  has_node a g = true -> has_node b g = true ->
  str_in_list k edge_kinds = true ->
  exists g', add_relation a b k t g = Ok g'.
Proof.
  intros Hg Ha Hb Hk. rewrite add_relation_closed by done.
  destruct (adj g !! (a, b)) as [e|] eqn:He; [|eauto].
  destruct (Hg _ _ He) as (ty & -> & _). eauto.
Qed.

(** ** Steps *)

Lemma add_user_evolves u ts g g' : add_user u ts g = Ok g' -> evolves g g'.
Proof.
  rewrite add_user_closed. intros [= <-]. split.
  - intros v t Hv. unfold adoption in *. cbn [node].
    destruct (decide (u = v)) as [->|Hne].
    + rewrite lookup_insert_eq. cbn [adoption_time].
      destruct ts as [t'|]; [|exists t; split; [done|lia]].
      eexists; split; [done|]. rewrite Hv. apply merge_time_le_old.
    + rewrite lookup_insert_ne by done. exists t. split; [done|lia].
  - intros p e He. exists e. split; [done|]. split.
    + intros ty Hty. exists ty. repeat split; [done..|lia].
    + intros t Ht. exists t. split; [done|lia].
Qed.

Lemma add_relation_evolves a b k t g g' :
  add_relation a b k t g = Ok g' -> evolves g g'.
Proof.
  intros H. destruct (add_relation_frame _ _ _ _ _ _ H) as [Hn Hf].
  destruct (add_relation_edge _ _ _ _ _ _ H) as (ty' & He' & Hty'). split.
  - intros u t0 Hu. unfold adoption in *. rewrite Hn. exists t0. split; [done|lia].
  - intros p e He. destruct (decide (p = (a, b))) as [->|Hne].
    + eexists. split; [exact He'|]. unfold edge_type_of in Hty'.
      rewrite He in *. cbn [type creation_time]. split.
      * intros ty Hty. rewrite Hty in Hty'. subst ty'. eexists. split; [done|].
        assert (forall k0, str_contains k0 ty = true ->
                           str_contains k0 (merge_type ty k) = true) as Hkeep
            by (intros; by apply merge_type_keeps).
        split; [done|]. by apply kinds_of_mono.
      * intros t0 Ht0. rewrite Ht0. eexists. split; [done|]. apply merge_time_le_old.
    + rewrite (Hf p Hne). exists e. split; [done|]. split.
      * intros ty Hty. exists ty. repeat split; [done..|lia].
      * intros t0 Ht0. exists t0. split; [done|lia].
Qed.

Lemma step_evolves g g' : step g g' -> evolves g g'.
Proof.
  destruct 1; [by eapply add_user_evolves | by eapply add_relation_evolves].
Qed.

Lemma step_edges_typed g g' : step g g' -> edges_typed g -> edges_typed g'.
Proof.
  destruct 1 as [u ts g g' H|a b k t g g' H]; intros Hg p e He.
  - rewrite add_user_closed in H. injection H as <-. by apply (Hg p).
  - destruct (add_relation_frame _ _ _ _ _ _ H) as [Hn Hf].
    destruct (add_relation_edge _ _ _ _ _ _ H) as (ty' & He' & Hty').
    destruct (add_relation_checks _ _ _ _ _ _ H) as (_ & _ & Hk).
    destruct (decide (p = (a, b))) as [->|Hne].
    + rewrite He' in He. injection He as <-. exists ty'. split; [done|].
      apply (kinds_of_nonempty k); [done|].
      destruct (edge_type_of g a b) as [ty0|]; subst ty'.
      * by apply merge_type_has.
      * apply kind_is_char in Hk as [c ->]. simpl. by rewrite Ascii.eqb_refl.
    + rewrite (Hf p Hne) in He. by apply (Hg p).
Qed.

Lemma reachable_edges_typed g : reachable g -> edges_typed g.
Proof.
  induction 1 as [|g g' _ IH Hs].
  - intros p e He. cbn [empty_graph adj] in He. by rewrite lookup_empty in He.
  - by apply (step_edges_typed g).
Qed.

Lemma edge_count_lookup g p :
  edge_count g p = match adj g !! p with Some _ => 1%nat | None => 0%nat end.
Proof.
  unfold edge_count. generalize (adj g) as m.
  induction m as [|i x m Hi Hfirst IH] using map_first_key_ind.
  - rewrite map_to_list_empty, lookup_empty, filter_nil. reflexivity.
  - rewrite map_to_list_insert_first_key by done.
    rewrite filter_cons. destruct (decide (i = p)) as [->|Hne].
    + rewrite lookup_insert_eq. rewrite decide_True by done.
      cbn [length]. rewrite IH, Hi. done.
    + rewrite lookup_insert_ne by done. rewrite decide_False by done. exact IH.
Qed.

Lemma two_users_reachable : reachable two_users.
Proof.
  eapply reach_step; [eapply reach_step; [apply reach_empty|]|].
  - apply (step_add_user 1 None). rewrite add_user_closed. reflexivity.
  - apply (step_add_user 2 None). rewrite add_user_closed. reflexivity.
Qed.

Lemma two_users_quoted_reachable : reachable two_users_quoted.
Proof.
  eapply reach_step; [apply two_users_reachable|].
  apply (step_add_relation 1 2 "Q" 0). by vm_compute.
Qed.

Lemma kinds_of_ext ty ty' :
  (forall k, str_in_list k edge_kinds = true ->
             str_contains k ty = str_contains k ty') ->
  kinds_of ty = kinds_of ty'.
Proof.
  intros H. unfold kinds_of. apply List.filter_ext_in. intros k Hk. apply H.
  unfold str_in_list. apply existsb_exists. exists k. split; [done|].
  apply String.eqb_refl.
Qed.

Lemma str_contains_kind k' k :
  str_in_list k edge_kinds = true -> str_in_list k' edge_kinds = true ->
  str_contains k' k = String.eqb k' k.
Proof.
  intros [c ->]%kind_is_char [c' ->]%kind_is_char. simpl.
  by destruct (Ascii.eqb c' c).
Qed.

(** ** GraphBuilder: the properties of the specification *)

(** C4 (idempotent earliest timestamp).  Starting from a graph in which user
    [u] has no adoption time, [add_user u t1] followed by [add_user u t2]
    returns, leaves [u] with the adoption time [min t1 t2], and the graph is
    the very same when the two calls are made in the other order. *)
Theorem add_user_earliest_wins g u t1 t2 :
  adoption g u = None ->
  exists g',
    and_then (add_user u (Some t1) g) (add_user u (Some t2)) = Ok g' /\
    and_then (add_user u (Some t2) g) (add_user u (Some t1)) = Ok g' /\
    adoption g' u = Some (Z.min t1 t2).
Proof.
  intros Hu.
  exists (mkDiGraph (<[u := mkNodeAttr (Some (Z.min t1 t2))]> (node g)) (adj g)).
  assert (forall x y,
    and_then (add_user u (Some x) g) (add_user u (Some y)) =
    Ok (mkDiGraph (<[u := mkNodeAttr (Some (Z.min x y))]> (node g)) (adj g))) as H.
  { intros x y. rewrite add_user_closed, Hu.
    change (merge_time None x) with x. cbn [and_then].
    rewrite add_user_closed. unfold adoption. cbn [node adj].
    rewrite lookup_insert_eq. cbn [adoption_time].
    by rewrite merge_time_min, insert_insert_eq. }
  split; [apply H|]. split.
  - rewrite H. by rewrite Z.min_comm.
  - unfold adoption. cbn [node]. by rewrite lookup_insert_eq.
Qed.

Lemma add_user_earliest_wins_witness :
  exists g',
    and_then (add_user 7 (Some 30) two_users) (add_user 7 (Some 20)) = Ok g' /\
    and_then (add_user 7 (Some 20) two_users) (add_user 7 (Some 30)) = Ok g' /\
    adoption g' 7 = Some 20.
Proof. apply (add_user_earliest_wins two_users 7 30 20). reflexivity. Defined.

(** C3, as it holds (edge type accumulation).  When [a] and [b] are nodes and
    there is no edge from [a] to [b] yet, a retweet relation at [t1] followed
    by a mention relation at [t2] returns and leaves exactly one edge from
    [a] to [b]: its type attribute is ["RM"], which stands for the kinds
    retweet and mention, and its creation time is [min t1 t2]. *)
Theorem retweet_then_mention_fresh_edge g a b t1 t2 :
  has_node a g = true -> has_node b g = true ->
  adj g !! (a, b) = None ->
  exists g',
    and_then (add_relation a b "R" t1 g) (add_relation a b "M" t2) = Ok g' /\
    adj g' !! (a, b) = Some (mkEdgeAttr (Some "RM") (Some (Z.min t1 t2))) /\
    kinds_of "RM" = ["R"; "M"] /\
    edge_count g' (a, b) = 1%nat.
Proof.
  intros Ha Hb He.
  rewrite add_relation_closed by done. rewrite He. cbn [and_then].
  rewrite add_relation_closed by done. cbn [node adj].
  rewrite lookup_insert_eq. cbn [type creation_time].
  eexists. split; [reflexivity|]. cbn [adj].
  rewrite edge_count_lookup. cbn [adj]. rewrite !lookup_insert_eq.
  rewrite merge_time_min. done.
Qed.

Lemma retweet_then_mention_fresh_edge_witness :
  exists g',
    and_then (add_relation 1 2 "R" 5 two_users) (add_relation 1 2 "M" 7) = Ok g' /\
    adj g' !! (1, 2) = Some (mkEdgeAttr (Some "RM") (Some (Z.min 5 7))) /\
    kinds_of "RM" = ["R"; "M"] /\
    edge_count g' (1, 2) = 1%nat.
Proof.
  apply (retweet_then_mention_fresh_edge two_users 1 2 5 7); reflexivity.
Defined.

(** C3, as stated, fails on an edge that exists already: in a graph the
    builder can reach, where user 1 quoted user 2 at time 0, the retweet at
    5 and the mention at 7 leave the type attribute ["QRM"], which stands
    for three kinds, and the creation time 0, which is not [min 5 7]. *)
Lemma retweet_then_mention_on_quoted_edge :
  reachable two_users_quoted /\
  has_node 1 two_users_quoted = true /\ has_node 2 two_users_quoted = true /\
  exists g',
    and_then (add_relation 1 2 "R" 5 two_users_quoted)
             (add_relation 1 2 "M" 7) = Ok g' /\
    adj g' !! (1, 2) = Some (mkEdgeAttr (Some "QRM") (Some 0)) /\
    kinds_of "QRM" <> ["R"; "M"] /\
    0 <> Z.min 5 7.
Proof.
  split; [apply two_users_quoted_reachable|].
  split; [reflexivity|]. split; [reflexivity|].
  eexists. split; [reflexivity|]. split; [reflexivity|]. split; [|lia].
  vm_compute. discriminate.
Qed.

(** C5 (monotone upserts).  Every call of [add_user] or [add_relation] that
    returns keeps the graph in order: an adoption time that is set stays set
    and does not increase; every edge is still there, its type attribute
    keeps every kind it had (so it stands for at least as many kinds) and
    stands for at least one, and its creation time, once set, does not
    increase; and no ordered pair of nodes has more than one edge. *)
Theorem graph_builder_monotone g g' :
  edges_typed g -> step g g' ->
  edges_typed g' /\ evolves g g' /\ forall p, (edge_count g' p <= 1)%nat.
Proof.
  intros Hg Hs. split; [by apply (step_edges_typed g)|].
  split; [by apply step_evolves|].
  intros p. rewrite edge_count_lookup. destruct (adj g' !! p); lia.
Qed.

Lemma graph_builder_monotone_witness :
  exists g',
    add_relation 1 2 "R" 5 two_users_quoted = Ok g' /\
    edges_typed g' /\ evolves two_users_quoted g' /\
    forall p, (edge_count g' p <= 1)%nat.
Proof.
  eexists. split; [reflexivity|].
  apply graph_builder_monotone.
  - apply reachable_edges_typed, two_users_quoted_reachable.
  - apply (step_add_relation 1 2 "R" 5). reflexivity.
Defined.

(** C7 (precondition enforcement).  [add_relation] raises the assertion
    error "User id does not exist!" whenever one of its endpoints is not a
    node of the graph; and in every graph the builder can reach, with both
    endpoints nodes and a kind among the four, it returns. *)
Theorem add_relation_precursor_check g a b k t :
  (has_node a g = false \/ has_node b g = false ->
   add_relation a b k t g = Raise PrecursorMissing) /\
  (reachable g -> has_node a g = true -> has_node b g = true ->
   str_in_list k edge_kinds = true ->
   exists g', add_relation a b k t g = Ok g').
Proof.
  split.
  - unfold add_relation. intros [-> | ->]; [done|].
    by rewrite andb_false_r.
  - intros Hg. by apply add_relation_returns, reachable_edges_typed.
Qed.

Lemma add_relation_precursor_check_witness :
  add_relation 1 3 "R" 5 two_users_quoted = Raise PrecursorMissing /\
  exists g', add_relation 1 2 "C" 5 two_users_quoted = Ok g'.
Proof.
  split.
  - apply (add_relation_precursor_check two_users_quoted 1 3 "R" 5).
    right. reflexivity.
  - apply (add_relation_precursor_check two_users_quoted 1 2 "C" 5);
      [apply two_users_quoted_reachable | reflexivity..].
Defined.

(** C10 (frame of [add_relation]).  A call [add_relation a b k t] that
    returns leaves every node with the attributes it had, and every edge
    other than the one from [a] to [b] as it was (none is added, removed or
    changed). *)
Theorem add_relation_touches_one_edge g g' a b k t :
  add_relation a b k t g = Ok g' ->
  node g' = node g /\
  (forall u, adoption g' u = adoption g u) /\
  (forall p, p <> (a, b) -> adj g' !! p = adj g !! p).
Proof.
  intros H. destruct (add_relation_frame _ _ _ _ _ _ H) as [Hn Hf].
  split; [done|]. split; [|done].
  intros u. unfold adoption. by rewrite Hn.
Qed.

Lemma add_relation_touches_one_edge_witness :
  exists g',
    add_relation 2 1 "M" 9 two_users_quoted = Ok g' /\
    node g' = node two_users_quoted /\
    (forall u, adoption g' u = adoption two_users_quoted u) /\
    (forall p, p <> (2, 1) -> adj g' !! p = adj two_users_quoted !! p).
Proof.
  eexists. split; [reflexivity|].
  apply (add_relation_touches_one_edge two_users_quoted _ 2 1 "M" 9).
  reflexivity.
Defined.

(** C6, as it holds.  In every graph the builder can reach, with [a] and [b]
    nodes and [k1], [k2] among the four kinds, the two orders of the calls
    [add_relation a b k1 t1] and [add_relation a b k2 t2] both return, and
    the type attributes they leave on the edge from [a] to [b] stand for the
    same kinds. *)
Theorem edge_kinds_order_free g a b k1 k2 t1 t2 :
  reachable g ->
  has_node a g = true -> has_node b g = true ->
  str_in_list k1 edge_kinds = true -> str_in_list k2 edge_kinds = true ->
  exists g12 g21 ty12 ty21,
    and_then (add_relation a b k1 t1 g) (add_relation a b k2 t2) = Ok g12 /\
    and_then (add_relation a b k2 t2 g) (add_relation a b k1 t1) = Ok g21 /\
    edge_type_of g12 a b = Some ty12 /\
    edge_type_of g21 a b = Some ty21 /\
    kinds_of ty12 = kinds_of ty21.
Proof.
  intros Hg Ha Hb Hk1 Hk2. apply reachable_edges_typed in Hg.
  assert (forall k k' t t', str_in_list k edge_kinds = true ->
            str_in_list k' edge_kinds = true ->
            exists g2 ty,
              and_then (add_relation a b k t g) (add_relation a b k' t') = Ok g2 /\
              edge_type_of g2 a b = Some ty /\
              forall x, str_in_list x edge_kinds = true ->
                str_contains x ty =
                match edge_type_of g a b with
                | Some ty0 => str_contains x ty0
                | None => false
                end || String.eqb x k || String.eqb x k') as Hboth.
  { intros k k' t t' Hk Hk'.
    rewrite add_relation_closed by done. unfold edge_type_of.
    destruct (adj g !! (a, b)) as [e|] eqn:He.
    - destruct (Hg _ _ He) as (ty0 & Hty0 & _). rewrite Hty0. cbn [and_then].
      rewrite add_relation_closed by done. cbn [adj node].
      rewrite lookup_insert_eq. cbn [type].
      eexists _, _. split; [reflexivity|]. cbn [adj].
      rewrite lookup_insert_eq. cbn [type]. split; [reflexivity|].
      intros x Hx. by rewrite !merge_type_kind.
    - cbn [and_then]. rewrite add_relation_closed by done. cbn [adj node].
      rewrite lookup_insert_eq. cbn [type].
      eexists _, _. split; [reflexivity|]. cbn [adj].
      rewrite lookup_insert_eq. cbn [type]. split; [reflexivity|].
      intros x Hx. rewrite merge_type_kind by done.
      by rewrite str_contains_kind. }
  destruct (Hboth k1 k2 t1 t2 Hk1 Hk2) as (g12 & ty12 & H12 & Hty12 & Hin12).
  destruct (Hboth k2 k1 t2 t1 Hk2 Hk1) as (g21 & ty21 & H21 & Hty21 & Hin21).
  exists g12, g21, ty12, ty21. repeat split; try done.
  apply kinds_of_ext. intros x Hx. rewrite Hin12, Hin21 by done.
  rewrite <- !orb_assoc. f_equal. apply orb_comm.
Qed.

Lemma edge_kinds_order_free_witness :
  exists g12 g21 ty12 ty21,
    and_then (add_relation 1 2 "R" 5 two_users) (add_relation 1 2 "M" 7) = Ok g12 /\
    and_then (add_relation 1 2 "M" 7 two_users) (add_relation 1 2 "R" 5) = Ok g21 /\
    edge_type_of g12 1 2 = Some ty12 /\
    edge_type_of g21 1 2 = Some ty21 /\
    kinds_of ty12 = kinds_of ty21.
Proof.
  apply (edge_kinds_order_free two_users 1 2 "R" "M" 5 7);
    [apply two_users_reachable | reflexivity..].
Defined.

(** C6, as stated, fails: the stored type attribute is the string of the
    kinds in the order they were added.  On two users without an edge, a
    retweet and then a mention store ["RM"], a mention and then a retweet
    store ["MR"]. *)
Lemma stored_type_keeps_insertion_order :
  reachable two_users /\
  has_node 1 two_users = true /\ has_node 2 two_users = true /\
  exists g12 g21,
    and_then (add_relation 1 2 "R" 5 two_users) (add_relation 1 2 "M" 7) = Ok g12 /\
    and_then (add_relation 1 2 "M" 7 two_users) (add_relation 1 2 "R" 5) = Ok g21 /\
    edge_type_of g12 1 2 = Some "RM" /\
    edge_type_of g21 1 2 = Some "MR" /\
    edge_type_of g12 1 2 <> edge_type_of g21 1 2.
Proof.
  split; [apply two_users_reachable|].
  split; [reflexivity|]. split; [reflexivity|].
  eexists _, _. split; [reflexivity|]. split; [reflexivity|].
  split; [reflexivity|]. split; [reflexivity|]. discriminate.
Qed.

(** ** Runs of steps *)

Lemma steps_trans g1 g2 g3 : steps g1 g2 -> steps g2 g3 -> steps g1 g3.
Proof. induction 2; [done|]. eapply steps_next; eauto. Qed.

Lemma steps_one g g' : step g g' -> steps g g'.
Proof. intros. eapply steps_next; [apply steps_refl|done]. Qed.

Lemma steps_reachable g g' : reachable g -> steps g g' -> reachable g'.
Proof. induction 2; [done|]. eapply reach_step; eauto. Qed.

Lemma steps_edges_typed g g' : steps g g' -> edges_typed g -> edges_typed g'.
Proof. induction 1; [done|]. intros. eapply step_edges_typed; eauto. Qed.

Lemma step_has_node n g g' : step g g' -> has_node n g = true -> has_node n g' = true.
Proof.
  destruct 1 as [u ts g g' H|a b k t g g' H]; rewrite !has_node_true.
  - rewrite add_user_closed in H. injection H as <-. cbn [node].
    destruct (decide (u = n)) as [->|Hne].
    + rewrite lookup_insert_eq. eauto.
    + by rewrite lookup_insert_ne.
  - destruct (add_relation_frame _ _ _ _ _ _ H) as [-> _]. done.
Qed.

Lemma steps_has_node n g g' : steps g g' -> has_node n g = true -> has_node n g' = true.
Proof. induction 1; [done|]. intros. eapply step_has_node; eauto. Qed.

Lemma evolves_keeps_kind g g' a b k :
  evolves g g' -> edge_has_kind g a b k = true -> edge_has_kind g' a b k = true.
Proof.
  intros [_ He]. unfold edge_has_kind, edge_type_of.
  destruct (adj g !! (a, b)) as [e|] eqn:Hab; [|done].
  destruct (He _ _ Hab) as (e' & -> & Hty & _).
  destruct (type e) as [ty|]; [|done].
  destruct (Hty ty eq_refl) as (ty' & -> & Hk & _). apply Hk.
Qed.

Lemma steps_keeps_kind g g' a b k :
  steps g g' -> edge_has_kind g a b k = true -> edge_has_kind g' a b k = true.
Proof.
  induction 1 as [|g' g'' _ IH Hs]; [done|]. intros H.
  eapply evolves_keeps_kind; [by apply step_evolves|]. by apply IH.
Qed.

Lemma evolves_refl g : evolves g g.
Proof.
  split.
  - intros u t Hu. exists t. split; [done|lia].
  - intros p e He. exists e. split; [done|]. split.
    + intros ty Hty. exists ty. repeat split; [done..|lia].
    + intros t Ht. exists t. split; [done|lia].
Qed.

Lemma evolves_trans g1 g2 g3 : evolves g1 g2 -> evolves g2 g3 -> evolves g1 g3.
Proof.
  intros [Hu1 He1] [Hu2 He2]. split.
  - intros u t Hu. destruct (Hu1 u t Hu) as (t1 & Ht1 & Hle1).
    destruct (Hu2 u t1 Ht1) as (t2 & Ht2 & Hle2). exists t2. split; [done|lia].
  - intros p e He. destruct (He1 p e He) as (e1 & Hp1 & Hty1 & Hct1).
    destruct (He2 p e1 Hp1) as (e2 & Hp2 & Hty2 & Hct2).
    exists e2. split; [done|]. split.
    + intros ty Hty. destruct (Hty1 ty Hty) as (ty1 & Hty1' & Hk1 & Hn1).
      destruct (Hty2 ty1 Hty1') as (ty2 & Hty2' & Hk2 & Hn2).
      exists ty2. split; [done|]. split; [|lia]. intros k Hk. by apply Hk2, Hk1.
    + intros t Ht. destruct (Hct1 t Ht) as (t1 & Ht1 & Hle1).
      destruct (Hct2 t1 Ht1) as (t2 & Ht2 & Hle2). exists t2. split; [done|lia].
Qed.

(** Over a whole run of the builder the graph only evolves. *)
Lemma steps_evolves g g' : steps g g' -> evolves g g'.
Proof.
  induction 1 as [|g' g'' _ IH Hs]; [apply evolves_refl|].
  eapply evolves_trans; [exact IH|]. by apply step_evolves.
Qed.

(** ** Kinds on the edges *)

Lemma add_user_edges u ts g g' : add_user u ts g = Ok g' -> adj g' = adj g.
Proof. rewrite add_user_closed. by intros [= <-]. Qed.

Lemma add_user_has_node u ts g g' : add_user u ts g = Ok g' -> has_node u g' = true.
Proof.
  rewrite add_user_closed. intros [= <-]. apply has_node_true. cbn [node].
  rewrite lookup_insert_eq. eauto.
Qed.

Lemma add_relation_has_kind a b k t g g' :
  add_relation a b k t g = Ok g' -> edge_has_kind g' a b k = true.
Proof.
  intros H. destruct (add_relation_checks _ _ _ _ _ _ H) as (_ & _ & Hk).
  destruct (add_relation_edge _ _ _ _ _ _ H) as (ty & He & Hty).
  unfold edge_has_kind, edge_type_of at 1. rewrite He. cbn [type].
  destruct (edge_type_of g a b); subst ty.
  - by apply merge_type_has.
  - rewrite str_contains_kind by done. apply String.eqb_refl.
Qed.

(** A relation of kind [k] changes no edge's verdict on another kind. *)
Lemma add_relation_other_kind a b k t g g' k' :
  add_relation a b k t g = Ok g' ->
  str_in_list k' edge_kinds = true -> k' <> k ->
  forall p q, edge_has_kind g' p q k' = edge_has_kind g p q k'.
Proof.
  intros H Hk' Hne p q.
  destruct (add_relation_checks _ _ _ _ _ _ H) as (_ & _ & Hk).
  destruct (add_relation_frame _ _ _ _ _ _ H) as [_ Hf].
  destruct (add_relation_edge _ _ _ _ _ _ H) as (ty & He & Hty).
  apply String.eqb_neq in Hne.
  unfold edge_has_kind. destruct (decide ((p, q) = (a, b))) as [[= -> ->]|Hpq].
  - unfold edge_type_of at 1. rewrite He. cbn [type].
    destruct (edge_type_of g a b); subst ty.
    + rewrite merge_type_kind by done. by rewrite Hne, orb_false_r.
    + by rewrite str_contains_kind.
  - unfold edge_type_of. by rewrite (Hf _ Hpq).
Qed.

(** A relation from [a] to [b] changes no other edge's verdict on any kind. *)
Lemma add_relation_other_edge a b k t g g' k' p q :
  add_relation a b k t g = Ok g' -> (p, q) <> (a, b) ->
  edge_has_kind g' p q k' = edge_has_kind g p q k'.
Proof.
  intros H Hpq. destruct (add_relation_frame _ _ _ _ _ _ H) as [_ Hf].
  unfold edge_has_kind, edge_type_of. by rewrite (Hf _ Hpq).
Qed.

(** ** Quiet changes *)

Lemma quiet_refl w : quiet w w.
Proof. split; [done|]. split; [apply steps_refl|done]. Qed.

Lemma quiet_trans w1 w2 w3 : quiet w1 w2 -> quiet w2 w3 -> quiet w1 w3.
Proof.
  intros (Hl1 & Hs1 & Hm1) (Hl2 & Hs2 & Hm2). split; [congruence|].
  split; [by eapply steps_trans|]. intros a b. by rewrite Hm2.
Qed.

Lemma bind_ok {A B} (m : M A) (k : A -> M B) w a w' :
  m w = (Ok a, w') -> bind m k w = k a w'.
Proof. unfold bind. by intros ->. Qed.

Lemma run_add_user u ts w :
  exists w', on_network (add_user u ts) w = (Ok tt, w') /\ quiet w w' /\
             has_node u (network w') = true.
Proof.
  destruct (add_user_total u ts (network w)) as [g' Hg'].
  unfold on_network. rewrite Hg'. eexists. split; [done|].
  split; [|cbn [network]; by eapply add_user_has_node].
  split; [done|]. cbn [network]. split.
  - by apply steps_one, (step_add_user u ts).
  - intros a b. unfold edge_has_kind, edge_type_of.
    by rewrite (add_user_edges _ _ _ _ Hg').
Qed.

Lemma run_add_relation a b k t w :
  edges_typed (network w) ->
  has_node a (network w) = true -> has_node b (network w) = true ->
  str_in_list k edge_kinds = true -> k <> "M" ->
  exists w', on_network (add_relation a b k t) w = (Ok tt, w') /\ quiet w w' /\
             edge_has_kind (network w') a b k = true.
Proof.
  intros Hw Ha Hb Hk Hne.
  destruct (add_relation_returns a b k t _ Hw Ha Hb Hk) as [g' Hg'].
  unfold on_network. rewrite Hg'. eexists. split; [done|].
  split; [|cbn [network]; by eapply add_relation_has_kind].
  split; [done|]. cbn [network]. split.
  - by apply steps_one, (step_add_relation a b k t).
  - intros p q. by apply (add_relation_other_kind a b k t).
Qed.

(** ** The scan *)

Section ScanProperties.

Context {lib : PyLib}.

Lemma py_in_key k d :
  py_in (VStr k) (VDict d) = Ok (bool_decide (is_Some (dict_get k d))).
Proof. reflexivity. Qed.

(** The retweet and the quote branch on a record of the expected form. *)
Lemma embedded_branch_quiet field kind d ev uid t ms0 w :
  embedded_view field d ev ->
  str_in_list kind edge_kinds = true -> kind <> "M" ->
  edges_typed (network w) -> has_node uid (network w) = true ->
  exists w',
    embedded_branch field kind (VDict d) uid t (VList ms0) w =
      (Ok (VList (match ev with Some (_, ms) => ms | None => ms0 end)), w') /\
    quiet w w' /\
    match ev with
    | Some (o, _) => edge_has_kind (network w') uid o kind = true
    | None => True
    end.
Proof.
  intros Hev Hk Hne Hw Hu. unfold embedded_branch.
  rewrite (bind_ok _ _ w (bool_decide (is_Some (dict_get field d))) w)
    by (unfold lift; by rewrite py_in_key).
  destruct ev as [[o ms]|]; cbn [embedded_view] in Hev.
  - destruct Hev as (st & Hst & Ho & Hms).
    rewrite bool_decide_eq_true_2 by (rewrite Hst; eauto).
    rewrite (bind_ok _ _ w o w)
      by (unfold lift, py_getitem; by rewrite Hst, Ho).
    destruct (run_add_user o None w) as (w1 & Hrun1 & Hq1 & Ho1).
    rewrite (bind_ok _ _ _ _ _ Hrun1).
    destruct Hq1 as (Hl1 & Hs1 & Hm1).
    destruct (run_add_relation uid o kind t w1) as (w2 & Hrun2 & Hq2 & Hk2);
      try done.
    { by eapply steps_edges_typed. }
    { by eapply steps_has_node. }
    rewrite (bind_ok _ _ _ _ _ Hrun2).
    exists w2. split.
    + unfold lift, py_getitem. by rewrite Hst, Hms.
    + split; [|done]. by apply (quiet_trans w w1 w2).
  - rewrite bool_decide_eq_false_2 by (rewrite Hev; by intros [? ?]).
    exists w. split; [done|]. split; [apply quiet_refl|done].
Qed.

(** One turn of the mention loop, in its three cases. *)
Lemma mention_turn_malformed d uid t orm oqm m tid w :
  malformed m = true -> dict_get "id" d = Some tid ->
  mention_body (VDict d) uid t orm oqm m w =
    (Ok tt, mkWorld (network w) (log w ++ [ErrorAbnormalMention tid])
                    (store_trace w) (stdout w)).
Proof.
  unfold malformed, mention_body. intros Hm Hid.
  destruct (mention_id m); [done|].
  unfold bind, lift, py_getitem. by rewrite Hid.
Qed.

Lemma mention_turn_counted d uid t rms qms m x w :
  mention_id m = Ok x ->
  existsb (py_eq m) rms || existsb (py_eq m) qms = true ->
  mention_body (VDict d) uid t (VList rms) (VList qms) m w = (Ok tt, w).
Proof.
  unfold mention_body. intros -> Hc. unfold bind, lift. cbn [py_in].
  destruct (existsb (py_eq m) rms); [done|].
  cbn [orb] in Hc. by rewrite Hc.
Qed.

Lemma mention_turn_fresh d uid t rms qms m x w :
  mention_id m = Ok x ->
  existsb (py_eq m) rms || existsb (py_eq m) qms = false ->
  edges_typed (network w) -> has_node uid (network w) = true ->
  exists w',
    mention_body (VDict d) uid t (VList rms) (VList qms) m w = (Ok tt, w') /\
    log w' = log w /\
    steps (network w) (network w') /\
    edge_has_kind (network w') uid x "M" = true /\
    (forall a b, edge_has_kind (network w') a b "M" = true ->
       (a = uid /\ b = x) \/ edge_has_kind (network w) a b "M" = true).
Proof.
  unfold mention_body. intros -> Hc Hw Hu. unfold bind at 1 2, lift. cbn [py_in].
  apply orb_false_iff in Hc as [-> ->].
  destruct (run_add_user x None w) as (w1 & Hrun1 & (Hl1 & Hs1 & Hm1) & Hx1).
  rewrite (bind_ok _ _ _ _ _ Hrun1).
  assert (edges_typed (network w1)) as Hw1 by by eapply steps_edges_typed.
  assert (has_node uid (network w1) = true) as Hu1 by by eapply steps_has_node.
  destruct (add_relation_returns uid x "M" t _ Hw1 Hu1 Hx1 eq_refl) as [g2 Hg2].
  assert (on_network (add_relation uid x "M" t) w1 =
          (Ok tt, mkWorld g2 (log w1) (store_trace w1) (stdout w1))) as Hrun2
    by (unfold on_network; by rewrite Hg2).
  rewrite (bind_ok _ _ _ _ _ Hrun2).
  eexists. split; [reflexivity|]. cbn [network log].
  split; [done|]. split; [|split].
  - eapply steps_next; [exact Hs1|]. by apply (step_add_relation uid x "M" t).
  - by eapply add_relation_has_kind.
  - intros a b Hab. destruct (decide ((a, b) = (uid, x))) as [[= -> ->]|Hne].
    + by left.
    + right. rewrite (add_relation_other_edge _ _ _ _ _ _ _ _ _ Hg2 Hne) in Hab.
      by rewrite <- Hm1.
Qed.

(** The mention loop over any list of entries. *)
Lemma mention_loop v d l w :
  dict_get "id" d = Some (ident v) ->
  edges_typed (network w) -> has_node (author v) (network w) = true ->
  exists w',
    for_each l (mention_body (VDict d) (author v) (created v)
                  (VList (fst (counted_lists v)))
                  (VList (snd (counted_lists v)))) w = (Ok tt, w') /\
    mentions_settled v l w w'.
Proof.
  intros Hid. revert w. induction l as [|m l IH]; intros w Hw Hu.
  - exists w. split; [done|]. split; [apply steps_refl|].
    split; [by rewrite app_nil_r|]. split; [by left|]. by intros m x [].
  - cbn [for_each].
    assert (exists w1,
      mention_body (VDict d) (author v) (created v)
        (VList (fst (counted_lists v))) (VList (snd (counted_lists v))) m w
        = (Ok tt, w1) /\
      mentions_settled v [m] w w1) as (w1 & Hrun1 & Hs1 & Hl1 & Hp1 & Hf1).
    { unfold mentions_settled, fresh_mention, counted. cbn [List.filter].
      destruct (mention_id m) as [x|e] eqn:Hm.
      - assert (malformed m = false) as -> by (unfold malformed; by rewrite Hm).
        destruct (existsb (py_eq m) (fst (counted_lists v))
                  || existsb (py_eq m) (snd (counted_lists v))) eqn:Hc.
        + exists w. split; [by eapply mention_turn_counted|].
          split; [apply steps_refl|]. split; [by rewrite app_nil_r|].
          split; [by left|]. intros m' x' [<-|[]] [_ ?]. congruence.
        + destruct (mention_turn_fresh d (author v) (created v) _ _ m x w Hm Hc Hw Hu)
            as (w1 & Hrun & Hlog & Hst & Hhas & Hprov).
          exists w1. split; [done|]. split; [done|].
          split; [by rewrite app_nil_r|]. split.
          * intros a b Hab. destruct (Hprov a b Hab) as [[-> ->]|?]; [|by left].
            right. split; [done|]. exists m. split; [by left|]. by rewrite Hm.
          * intros m' x' [<-|[]] [Hm' _]. rewrite Hm in Hm'. by injection Hm' as <-.
      - assert (malformed m = true) as Hbad by (unfold malformed; by rewrite Hm).
        rewrite Hbad. eexists. split; [by apply mention_turn_malformed|].
        cbn [network log]. split; [apply steps_refl|]. split; [done|].
        split; [by left|]. intros m' x' [<-|[]] [Hm' _]. congruence. }
    rewrite (bind_ok _ _ _ _ _ Hrun1).
    destruct (IH w1) as (w2 & Hrun2 & Hs2 & Hl2 & Hp2 & Hf2).
    { by eapply steps_edges_typed. }
    { by eapply steps_has_node. }
    exists w2. split; [done|]. split; [by eapply steps_trans|]. split; [|split].
    + rewrite Hl2, Hl1. cbn [List.filter].
      destruct (malformed m); cbn [map]; [|by rewrite app_nil_r].
      by rewrite <- app_assoc.
    + intros a b Hab. destruct (Hp2 a b Hab) as [Hab1|(-> & m' & Hin & Hfr)].
      * destruct (Hp1 a b Hab1) as [?|(-> & m' & [<-|[]] & Hfr)]; [by left|].
        right. split; [done|]. exists m. split; [by left|done].
      * right. split; [done|]. exists m'. split; [by right|done].
    + intros m' x [<-|Hin] Hfr.
      * eapply steps_keeps_kind; [exact Hs2|]. apply (Hf1 m x); [by left|done].
      * by apply (Hf2 m' x).
Qed.

Lemma mentions_settled_frame v l w w1 w2 w' :
  quiet w w1 -> mentions_settled v l w1 w2 -> quiet w2 w' ->
  mentions_settled v l w w'.
Proof.
  intros (Hl1 & Hs1 & Hm1) (Hs & Hl & Hp & Hf) (Hl2 & Hs2 & Hm2).
  split; [eapply steps_trans; [|exact Hs2]; by eapply steps_trans|].
  split; [by rewrite Hl2, Hl, Hl1|]. split.
  - intros a b. rewrite Hm2, <- Hm1. apply Hp.
  - intros m x Hin Hfr. rewrite Hm2. by apply (Hf m x).
Qed.

(** The mention branch on a record viewed as [v]. *)
Lemma mention_branch_settled d v ents w :
  dict_get "id" d = Some (ident v) ->
  dict_get "entities" d = Some (VDict ents) ->
  match mentioned v with
  | None => dict_get "user_mentions" ents = None
  | Some l => dict_get "user_mentions" ents = Some (VList l)
  end ->
  edges_typed (network w) -> has_node (author v) (network w) = true ->
  exists w',
    mention_branch (VDict d) (author v) (created v)
      (VList (fst (counted_lists v))) (VList (snd (counted_lists v))) w
      = (Ok tt, w') /\
    mentions_settled v (default [] (mentioned v)) w w'.
Proof.
  intros Hid Hents Hm Hw Hu. unfold mention_branch.
  rewrite (bind_ok _ _ w (VDict ents) w)
    by (unfold lift, py_getitem; by rewrite Hents).
  rewrite (bind_ok _ _ w (bool_decide (is_Some (dict_get "user_mentions" ents))) w)
    by (unfold lift; by rewrite py_in_key).
  destruct (mentioned v) as [l|]; cbn [default].
  - rewrite bool_decide_eq_true_2 by (rewrite Hm; eauto).
    rewrite (bind_ok _ _ w (VList l) w)
      by (unfold lift, getitem2, py_getitem; by rewrite Hents, Hm).
    rewrite (bind_ok _ _ w l w) by done.
    by apply mention_loop.
  - rewrite bool_decide_eq_false_2 by (rewrite Hm; by intros [? ?]).
    exists w. split; [done|]. split; [apply steps_refl|].
    split; [by rewrite app_nil_r|]. split; [by left|]. by intros m x [].
Qed.

(** The reply branch on a record of the expected form. *)
Lemma reply_branch_quiet d r uid t w :
  match r with
  | None => dict_get REPLY_FIELD d = None \/ dict_get REPLY_FIELD d = Some VNone
  | Some z =>
      exists x, dict_get REPLY_FIELD d = Some x /\ x <> VNone /\ py_int x = Ok z
  end ->
  edges_typed (network w) -> has_node uid (network w) = true ->
  exists w',
    reply_branch (VDict d) uid t w = (Ok tt, w') /\ quiet w w' /\
    match r with
    | Some z => edge_has_kind (network w') uid z "C" = true
    | None => True
    end.
Proof.
  intros Hr Hw Hu. unfold reply_branch.
  rewrite (bind_ok _ _ w (bool_decide (is_Some (dict_get REPLY_FIELD d))) w)
    by (unfold lift; by rewrite py_in_key).
  destruct r as [z|].
  - destruct Hr as (x & Hx & Hnone & Hz).
    rewrite bool_decide_eq_true_2 by (rewrite Hx; eauto).
    rewrite (bind_ok _ _ w x w) by (unfold lift, py_getitem; by rewrite Hx).
    destruct (run_add_user z None w) as (w1 & Hrun1 & Hq1 & Hz1).
    destruct (run_add_relation uid z "C" t w1) as (w2 & Hrun2 & Hq2 & Hk2);
      try done.
    { destruct Hq1 as (_ & ? & _). by eapply steps_edges_typed. }
    { destruct Hq1 as (_ & ? & _). by eapply steps_has_node. }
    exists w2. split; [|split; [by apply (quiet_trans w w1 w2)|done]].
    destruct x; try done;
      (rewrite (bind_ok _ _ w z w) by (unfold lift; by rewrite Hz);
       rewrite (bind_ok _ _ _ _ _ Hrun1);
       rewrite (bind_ok _ _ w1 _ w1) by (unfold lift, py_getitem; by rewrite Hx);
       rewrite (bind_ok _ _ w1 z w1) by (unfold lift; by rewrite Hz);
       exact Hrun2).
  - exists w. split; [|split; [apply quiet_refl|done]].
    destruct Hr as [Hr|Hr].
    + by rewrite bool_decide_eq_false_2 by (rewrite Hr; by intros [? ?]).
    + rewrite bool_decide_eq_true_2 by (rewrite Hr; eauto).
      by rewrite (bind_ok _ _ w VNone w) by (unfold lift, py_getitem; by rewrite Hr).
Qed.

(** A record of the expected form is processed to the end, whatever its
    mention entries are. *)
Lemma process_tweet_settled tweet v w :
  views tweet v -> edges_typed (network w) ->
  exists w',
    process_tweet tweet w = (Ok tt, w') /\
    mentions_settled v (default [] (mentioned v)) w w' /\
    has_node (author v) (network w') = true /\
    match retweeted v with
    | Some (o, _) => edge_has_kind (network w') (author v) o "R" = true
    | None => True
    end /\
    match quoted v with
    | Some (o, _) => edge_has_kind (network w') (author v) o "Q" = true
    | None => True
    end /\
    match reply_to v with
    | Some z => edge_has_kind (network w') (author v) z "C" = true
    | None => True
    end.
Proof.
  intros (d & -> & Huid & (c & Hc & Ht) & Hid & Hrt & Hqt & (ents & Hents & Hm) & Hr) Hw.
  unfold process_tweet.
  rewrite (bind_ok _ _ w (author v) w) by (unfold lift; by rewrite Huid).
  rewrite (bind_ok _ _ w c w) by (unfold lift, py_getitem; by rewrite Hc).
  rewrite (bind_ok _ _ w (created v) w) by (unfold lift; by rewrite Ht).
  destruct (run_add_user (author v) (Some (created v)) w)
    as (w1 & Hrun1 & Hq1 & Hu1).
  rewrite (bind_ok _ _ _ _ _ Hrun1).
  assert (edges_typed (network w1)) as Hw1
    by (destruct Hq1 as (_ & ? & _); by eapply steps_edges_typed).
  destruct (embedded_branch_quiet RETWEET_FIELD "R" d (retweeted v)
              (author v) (created v) [] w1 Hrt eq_refl)
    as (w2 & Hrun2 & Hq2 & Hk2); try done.
  rewrite (bind_ok _ _ _ _ _ Hrun2).
  assert (edges_typed (network w2)) as Hw2
    by (destruct Hq2 as (_ & ? & _); by eapply steps_edges_typed).
  assert (has_node (author v) (network w2) = true) as Hu2
    by (destruct Hq2 as (_ & ? & _); by eapply steps_has_node).
  destruct (embedded_branch_quiet QUOTE_FIELD "Q" d (quoted v)
              (author v) (created v) [] w2 Hqt eq_refl)
    as (w3 & Hrun3 & Hq3 & Hk3); try done.
  rewrite (bind_ok _ _ _ _ _ Hrun3).
  assert (edges_typed (network w3)) as Hw3
    by (destruct Hq3 as (_ & ? & _); by eapply steps_edges_typed).
  assert (has_node (author v) (network w3) = true) as Hu3
    by (destruct Hq3 as (_ & ? & _); by eapply steps_has_node).
  destruct (mention_branch_settled d v ents w3 Hid Hents Hm Hw3 Hu3)
    as (w4 & Hrun4 & Hs4).
  unfold counted_lists in Hrun4. cbn [fst snd] in Hrun4.
  rewrite (bind_ok _ _ _ _ _ Hrun4).
  assert (steps (network w3) (network w4)) as Hst4 by by destruct Hs4.
  assert (edges_typed (network w4)) as Hw4 by by eapply steps_edges_typed.
  assert (has_node (author v) (network w4) = true) as Hu4
    by by eapply steps_has_node.
  destruct (reply_branch_quiet d (reply_to v) (author v) (created v) w4 Hr Hw4 Hu4)
    as (w5 & Hrun5 & Hq5 & Hk5).
  exists w5. split; [done|].
  assert (steps (network w4) (network w5)) as Hst5 by by destruct Hq5 as (_ & ? & _).
  split; [|split; [by eapply steps_has_node|]].
  - eapply mentions_settled_frame; [|exact Hs4|exact Hq5].
    eapply quiet_trans; [exact Hq1|]. by eapply quiet_trans.
  - assert (steps (network w3) (network w5)) as Hst35 by by eapply steps_trans.
    split; [|split; [|done]].
    + destruct (retweeted v) as [[o ms]|]; [|done].
      eapply steps_keeps_kind; [exact Hst35|].
      destruct Hq3 as (_ & ? & _). by eapply steps_keeps_kind.
    + destruct (quoted v) as [[o ms]|]; [|done].
      by eapply steps_keeps_kind.
Qed.

(** *** The trace of store accesses only grows *)

Lemma extends_ret {A} (a : A) : extends_trace (ret a).
Proof. intros w r w' [= <- <-]. exists []. by rewrite app_nil_r. Qed.

Lemma extends_lift {A} (r : result A) : extends_trace (lift r).
Proof. intros w r' w' [= <- <-]. exists []. by rewrite app_nil_r. Qed.

Lemma extends_on_network f : extends_trace (on_network f).
Proof.
  intros w r w'. unfold on_network.
  destruct (f (network w)); intros [= <- <-]; exists []; by rewrite app_nil_r.
Qed.

Lemma extends_logging r : extends_trace (logging r).
Proof. intros w r' w' [= <- <-]. exists []. by rewrite app_nil_r. Qed.

Lemma extends_print s : extends_trace (print s).
Proof. intros w r' w' [= <- <-]. exists []. by rewrite app_nil_r. Qed.

Lemma extends_access a : extends_trace (access_store a).
Proof. intros w r' w' [= <- <-]. by exists [a]. Qed.

Lemma extends_bind {A B} (m : M A) (k : A -> M B) :
  extends_trace m -> (forall a, extends_trace (k a)) -> extends_trace (bind m k).
Proof.
  intros Hm Hk w r w'. unfold bind.
  destruct (m w) as [[a|e] w1] eqn:Hmw; destruct (Hm _ _ _ Hmw) as [more1 H1].
  - intros Hkw. destruct (Hk _ _ _ _ Hkw) as [more2 H2].
    exists (more1 ++ more2). by rewrite H2, H1, app_assoc.
  - intros [= <- <-]. eauto.
Qed.

Lemma extends_for_each {A} (l : list A) (body : A -> M unit) :
  (forall x, extends_trace (body x)) -> extends_trace (for_each l body).
Proof.
  intros Hbody. induction l as [|x l IH]; cbn [for_each].
  - apply extends_ret.
  - apply extends_bind; [apply Hbody|done].
Qed.

Ltac extends :=
  repeat first
    [ apply extends_ret | apply extends_lift | apply extends_on_network
    | apply extends_logging | apply extends_access | apply extends_print
    | apply extends_bind; [|intros ?]
    | apply extends_for_each; intros ?
    | match goal with
      | |- extends_trace (if ?b then _ else _) => destruct b
      | |- extends_trace (match ?x with _ => _ end) => destruct x
      end ].

Lemma extends_process_tweet tweet : extends_trace (process_tweet tweet).
Proof.
  unfold process_tweet, embedded_branch, mention_branch, mention_body,
    reply_branch.
  extends.
Qed.

(** *** TweetProcessor: the properties of the specification *)

(** C1 (end-to-end scenario).  The store holds two records tagged "X": user
    100 posts at time 1000 with no interaction, and user 200, at time
    2000, retweets that post.  From the empty graph, [query_tweets "X"]
    returns and leaves exactly the graph with node 100 adopted at 1000,
    node 200 adopted at 2000, and the one edge from 200 to 100, of type
    ["R"] and creation time 2000. *)
Theorem scenario_run c1 c2 w :
  strptime_epoch c1 = Some 1000 -> strptime_epoch c2 = Some 2000 ->
  network w = empty_graph ->
  exists w',
    query_tweets [first_post c1; the_retweet c2] "X" w = (Ok tt, w') /\
    network w' = scenario_graph /\
    kinds_of "R" = ["R"].
Proof.
  intros H1 H2 Hw. destruct w as [g lg tr out]. simpl in Hw. subst g.
  eexists. split; [|split].
  - unfold query_tweets, find_tweets, process_tweet, bind, lift, first_post,
      the_retweet, tweet_doc, py_timestamp.
    cbn. rewrite H1. cbn. rewrite H2. vm_compute. reflexivity.
  - vm_compute. reflexivity.
  - reflexivity.
Qed.

(** C2 (mention dedup against propagated content).  Take a record of the
    expected form that embeds a retweeted tweet, from a graph the builder
    can reach.  Processing it returns and leaves the retweet kind on the
    edge from the author to the original author; and an edge from the
    author carries the mention kind afterwards only if it carried it
    before, or if an entry of the top-level mention list names its target
    and is not, verbatim, in the retweeted tweet's mention list.  So when
    every top-level entry that names user [x] is in that list, and there
    was no mention edge from the author to [x], there is none afterwards. *)
Theorem propagated_mention_not_recounted tweet v o rms l w :
  views tweet v -> reachable (network w) ->
  retweeted v = Some (o, rms) -> mentioned v = Some l ->
  exists w',
    process_tweet tweet w = (Ok tt, w') /\
    edge_has_kind (network w') (author v) o "R" = true /\
    (forall x, edge_has_kind (network w') (author v) x "M" = true ->
       edge_has_kind (network w) (author v) x "M" = true \/
       exists m, In m l /\ mention_id m = Ok x /\ existsb (py_eq m) rms = false) /\
    (forall x,
       (forall m, In m l -> mention_id m = Ok x -> existsb (py_eq m) rms = true) ->
       edge_has_kind (network w) (author v) x "M" = false ->
       edge_has_kind (network w') (author v) x "M" = false).
Proof.
  intros Hv Hw Hrt Hl.
  destruct (process_tweet_settled tweet v w Hv (reachable_edges_typed _ Hw))
    as (w' & Hrun & (_ & _ & Hprov & _) & _ & HR & _).
  exists w'. split; [done|]. rewrite Hrt in HR. split; [done|].
  assert (forall x, edge_has_kind (network w') (author v) x "M" = true ->
            edge_has_kind (network w) (author v) x "M" = true \/
            exists m, In m l /\ mention_id m = Ok x /\
                      existsb (py_eq m) rms = false) as Hfrom.
  { intros x Hx. destruct (Hprov _ _ Hx) as [?|(_ & m & Hin & Hm & Hc)]; [by left|].
    right. exists m. rewrite Hl in Hin. split; [done|]. split; [done|].
    unfold counted, counted_lists in Hc. rewrite Hrt in Hc. cbn [fst] in Hc.
    by apply orb_false_iff in Hc as [? _]. }
  split; [done|]. intros x Hdup Hbefore.
  destruct (edge_has_kind (network w') (author v) x "M") eqn:Hafter; [|done].
  destruct (Hfrom x Hafter) as [Hb|(m & Hin & Hm & Hnot)]; [congruence|].
  rewrite (Hdup m Hin Hm) in Hnot. done.
Qed.

(** C8, as it holds (malformed mention tolerance).  Take a record of the expected form
    whose top-level mention list has two entries, one whose user id does
    not convert and one that names user [x] and is not already counted,
    from a graph the builder can reach.  Processing it returns, the edge
    from the author to [x] carries the mention kind, exactly one record is
    added to the log, the anomaly of this record, and the scan goes on
    with the records that follow. *)
Theorem malformed_mention_tolerated tweet v bad good x l rest w :
  views tweet v -> reachable (network w) ->
  mentioned v = Some l -> l = [bad; good] \/ l = [good; bad] ->
  malformed bad = true -> fresh_mention v good x ->
  exists w',
    process_tweet tweet w = (Ok tt, w') /\
    edge_has_kind (network w') (author v) x "M" = true /\
    log w' = log w ++ [ErrorAbnormalMention (ident v)] /\
    length (anomalies (log w')) = S (length (anomalies (log w))) /\
    for_each (tweet :: rest) process_tweet w = for_each rest process_tweet w'.
Proof.
  intros Hv Hw Hl Hperm Hbad Hgood.
  destruct (process_tweet_settled tweet v w Hv (reachable_edges_typed _ Hw))
    as (w' & Hrun & (_ & Hlog & _ & Hfresh) & _).
  rewrite Hl in Hlog, Hfresh. cbn [default from_option id] in Hlog, Hfresh.
  assert (malformed good = false) as Hok.
  { destruct Hgood as [Hid _]. unfold malformed. by rewrite Hid. }
  assert (log w' = log w ++ [ErrorAbnormalMention (ident v)]) as Hlog'.
  { destruct Hperm as [-> | ->]; cbn [List.filter] in Hlog;
      by rewrite Hbad, Hok in Hlog. }
  exists w'. split; [done|]. split; [|split; [done|split]].
  - apply (Hfresh good x); [|done]. destruct Hperm as [-> | ->]; simpl; auto.
  - rewrite Hlog'. unfold anomalies. rewrite List.filter_app, length_app.
    cbn. lia.
  - cbn [for_each]. by rewrite (bind_ok _ _ _ _ _ Hrun).
Qed.

(** C9 (empty topic).  [query_tweets ""] raises the assertion error
    "Hashtag shouldn't be empty!" and leaves the world as it was: no store
    access, the same graph.  For any other topic the first thing added to
    the trace of store accesses is the query for that topic. *)
Theorem empty_topic_rejected tweets w :
  query_tweets tweets "" w = (Raise InvalidArgument, w) /\
  forall hashtag, hashtag <> "" ->
    exists r w' more,
      query_tweets tweets hashtag w = (r, w') /\
      store_trace w' = store_trace w ++ FindTweets hashtag :: more.
Proof.
  split; [done|]. intros hashtag Hne. unfold query_tweets.
  apply String.eqb_neq in Hne. rewrite Hne.
  unfold bind at 1 2 3, logging, access_store. cbn [network log store_trace stdout].
  match goal with
  | |- context [bind ?m ?k ?w0] =>
      destruct (bind m k w0) as [r w'] eqn:Hrun;
      assert (extends_trace (bind m k)) as Hext
  end.
  { apply extends_bind; [|intros; apply extends_print].
    apply extends_for_each, extends_process_tweet. }
  destruct (Hext _ _ _ Hrun) as [more Hmore]. cbn [store_trace] in Hmore.
  exists r, w', more. split; [done|]. by rewrite Hmore, <- app_assoc.
Qed.

End ScanProperties.

(** ** The sample records, run *)

Lemma post_with_ghost_views :
  views (lib := sample_lib) post_with_ghost post_with_ghost_view.
Proof.
  eexists. split; [reflexivity|]. split; [reflexivity|].
  split; [eexists; split; reflexivity|]. split; [reflexivity|].
  split; [reflexivity|]. split; [reflexivity|].
  split; [eexists; split; reflexivity|]. by left.
Qed.

Lemma retweet_with_mention_views :
  views (lib := sample_lib) retweet_with_mention retweet_with_mention_view.
Proof.
  eexists. split; [reflexivity|]. split; [reflexivity|].
  split; [eexists; split; reflexivity|]. split; [reflexivity|].
  split; [eexists; repeat split; reflexivity|]. split; [reflexivity|].
  split; [eexists; split; reflexivity|]. by left.
Qed.

(** The retweet whose mention is propagated: the run ends with the retweet
    edge alone. *)
Example retweet_with_mention_run :
  exists w',
    process_tweet (lib := sample_lib) retweet_with_mention initial_world = (Ok tt, w') /\
    network w' =
      mkDiGraph (<[100 := mkNodeAttr None]> (<[200 := mkNodeAttr (Some 2000)]> ∅))
                (<[(200, 100) := mkEdgeAttr (Some "R") (Some 2000)]> ∅) /\
    log w' = [] /\
    edge_has_kind (network w') 200 400 "M" = false.
Proof. eexists. split; [by vm_compute|]. by vm_compute. Qed.

(** The post with a mention that has no id: one anomaly, one mention edge. *)
Example post_with_ghost_run :
  exists w',
    process_tweet (lib := sample_lib) post_with_ghost initial_world = (Ok tt, w') /\
    network w' =
      mkDiGraph (<[400 := mkNodeAttr None]> (<[300 := mkNodeAttr (Some 1000)]> ∅))
                (<[(300, 400) := mkEdgeAttr (Some "M") (Some 1000)]> ∅) /\
    log w' = [ErrorAbnormalMention (VInt 7)].
Proof. eexists. split; [by vm_compute|]. by vm_compute. Qed.

(** A record without an ["id"] is not of the expected form: the handler of
    the malformed mention raises in its turn, and the scan stops there. *)
Example post_without_id_run :
  exists w',
    for_each [post_without_id; first_post stamp_2000]
             (process_tweet (lib := sample_lib)) initial_world
      = (Raise (KeyError "id"), w') /\
    log w' = [] /\ adj (network w') = ∅.
Proof. eexists. split; [by vm_compute|]. by vm_compute. Qed.

Lemma scenario_run_witness :
  exists w',
    query_tweets (lib := sample_lib)
      [first_post stamp_1000; the_retweet stamp_2000] "X" initial_world = (Ok tt, w') /\
    network w' = scenario_graph /\
    kinds_of "R" = ["R"].
Proof.
  apply (scenario_run (lib := sample_lib) stamp_1000 stamp_2000 initial_world);
    reflexivity.
Defined.

Lemma propagated_mention_not_recounted_witness :
  exists w',
    process_tweet (lib := sample_lib) retweet_with_mention initial_world = (Ok tt, w') /\
    edge_has_kind (network w') 200 100 "R" = true /\
    (forall x, edge_has_kind (network w') 200 x "M" = true ->
       edge_has_kind (network initial_world) 200 x "M" = true \/
       exists m, In m [bob_mention] /\ mention_id (lib := sample_lib) m = Ok x /\
                 existsb (py_eq m) [bob_mention] = false) /\
    (forall x,
       (forall m, In m [bob_mention] -> mention_id (lib := sample_lib) m = Ok x ->
                  existsb (py_eq m) [bob_mention] = true) ->
       edge_has_kind (network initial_world) 200 x "M" = false ->
       edge_has_kind (network w') 200 x "M" = false).
Proof.
  apply (propagated_mention_not_recounted (lib := sample_lib)
           retweet_with_mention retweet_with_mention_view 100 [bob_mention]
           [bob_mention] initial_world).
  - apply retweet_with_mention_views.
  - apply reach_empty.
  - reflexivity.
  - reflexivity.
Defined.

Lemma malformed_mention_tolerated_witness :
  exists w',
    process_tweet (lib := sample_lib) post_with_ghost initial_world = (Ok tt, w') /\
    edge_has_kind (network w') 300 400 "M" = true /\
    log w' = log initial_world ++ [ErrorAbnormalMention (VInt 7)] /\
    length (anomalies (log w')) = S (length (anomalies (log initial_world))) /\
    for_each [post_with_ghost; first_post stamp_2000]
             (process_tweet (lib := sample_lib)) initial_world =
    for_each [first_post stamp_2000] (process_tweet (lib := sample_lib)) w'.
Proof.
  apply (malformed_mention_tolerated (lib := sample_lib)
           post_with_ghost post_with_ghost_view ghost_mention bob_mention 400
           [ghost_mention; bob_mention] [first_post stamp_2000] initial_world).
  - apply post_with_ghost_views.
  - apply reach_empty.
  - reflexivity.
  - by left.
  - reflexivity.
  - split; reflexivity.
Defined.

Lemma empty_topic_rejected_witness :
  query_tweets (lib := sample_lib) [first_post stamp_1000] "" initial_world
    = (Raise InvalidArgument, initial_world) /\
  exists r w' more,
    query_tweets (lib := sample_lib) [first_post stamp_1000] "X" initial_world
      = (r, w') /\
    store_trace w' = store_trace initial_world ++ FindTweets "X" :: more.
Proof.
  destruct (empty_topic_rejected (lib := sample_lib)
              [first_post stamp_1000] initial_world) as [Hempty Hother].
  split; [exact Hempty|]. apply Hother. discriminate.
Defined.

(** * Further properties of the program *)

(** ** GraphBuilder *)

Lemma adoption_has_node g u t : adoption g u = Some t -> has_node u g = true.
Proof.
  unfold adoption. intros H. apply has_node_true.
  destruct (node g !! u); [eauto|done].
Qed.

Lemma graph_eta g : mkDiGraph (node g) (adj g) = g.
Proof. by destruct g. Qed.

Lemma merge_time_idem old t t' :
  t <= t' -> merge_time (Some (merge_time old t)) t' = merge_time old t.
Proof.
  intros Hle. rewrite merge_time_min.
  pose proof (merge_time_le_new old t). lia.
Qed.

(** X1.  [add_user] with no time stamp, or with one that is not earlier than the
    adoption time the node has, leaves the graph as it is: the comparison
    is strict, so an equal time stamp writes nothing either. *)
Theorem add_user_nothing_new g u ts :
  has_node u g = true ->
  match ts with
  | None => True
  | Some t => exists t0, adoption g u = Some t0 /\ t0 <= t
  end ->
  add_user u ts g = Ok g.
Proof.
  intros Hu Hts. rewrite add_user_closed. f_equal.
  apply has_node_true in Hu as [attr Hattr].
  rewrite <- (graph_eta g) at 3. f_equal.
  apply insert_id. rewrite Hattr. f_equal.
  unfold adoption in *. rewrite Hattr in *. destruct ts as [t|].
  - destruct Hts as (t0 & Ht0 & Hle). rewrite Ht0, merge_time_min.
    destruct attr; simpl in *; subst. f_equal. f_equal. lia.
  - by destruct attr.
Qed.

Lemma add_user_nothing_new_witness :
  add_user 100 (Some 2000) scenario_graph = Ok scenario_graph.
Proof.
  apply (add_user_nothing_new scenario_graph 100 (Some 2000)); [reflexivity|].
  exists 1000. split; [reflexivity|lia].
Defined.

(** X2.  [add_user] is idempotent: the same call again changes nothing, whether
    the node was new or not. *)
Theorem add_user_idempotent g g' u ts :
  add_user u ts g = Ok g' -> add_user u ts g' = Ok g'.
Proof.
  rewrite add_user_closed. intros [= <-]. rewrite add_user_closed.
  unfold adoption. cbn [node adj]. rewrite lookup_insert_eq. cbn [adoption_time].
  rewrite insert_insert_eq. destruct ts as [t|]; [|done].
  by rewrite merge_time_idem by lia.
Qed.

Lemma add_user_idempotent_witness :
  exists g', add_user 7 (Some 30) two_users = Ok g' /\ add_user 7 (Some 30) g' = Ok g'.
Proof.
  eexists. split; [reflexivity|].
  apply (add_user_idempotent two_users _ 7 (Some 30)). reflexivity.
Defined.

Lemma merge_time_comm old t1 t2 :
  merge_time (Some (merge_time old t1)) t2 = merge_time (Some (merge_time old t2)) t1.
Proof.
  rewrite !merge_time_min. destruct old as [o|]; cbn [merge_time].
  - destruct (Z.ltb_spec t1 o), (Z.ltb_spec t2 o); lia.
  - lia.
Qed.

(** X3.  Two [add_user] calls commute, for the same user or for two users, with
    or without time stamps: the graph does not depend on the order in which
    the records are seen. *)
Theorem add_user_commute g u1 ts1 u2 ts2 :
  and_then (add_user u1 ts1 g) (add_user u2 ts2) =
  and_then (add_user u2 ts2 g) (add_user u1 ts1).
Proof.
  rewrite !add_user_closed. cbn [and_then]. rewrite !add_user_closed.
  unfold adoption. cbn [node adj]. f_equal. f_equal.
  destruct (decide (u1 = u2)) as [->|Hne].
  - rewrite !lookup_insert_eq, !insert_insert_eq. cbn [adoption_time].
    f_equal. f_equal.
    destruct ts1 as [t1|], ts2 as [t2|]; try done.
    f_equal. apply merge_time_comm.
  - rewrite !lookup_insert_ne by done. by apply insert_insert_ne.
Qed.

(** X4.  [add_user] writes one node: it leaves every edge and every other node as
    it was, and the user is a node afterwards. *)
Theorem add_user_touches_one_node g g' u ts :
  add_user u ts g = Ok g' ->
  adj g' = adj g /\
  (forall v, v <> u -> node g' !! v = node g !! v) /\
  has_node u g' = true.
Proof.
  intros H. split; [by eapply add_user_edges|].
  split; [|by eapply add_user_has_node].
  rewrite add_user_closed in H. injection H as <-.
  intros v Hv. cbn [node]. by rewrite lookup_insert_ne.
Qed.

Lemma add_user_touches_one_node_witness :
  exists g',
    add_user 2 (Some 4) two_users_quoted = Ok g' /\
    adj g' = adj two_users_quoted /\
    (forall v, v <> 2 -> node g' !! v = node two_users_quoted !! v) /\
    has_node 2 g' = true.
Proof.
  eexists. split; [reflexivity|].
  apply (add_user_touches_one_node two_users_quoted _ 2 (Some 4)). reflexivity.
Defined.

(** X5.  The outcomes of [add_relation] on a graph the builder can reach: it
    raises "User id does not exist!" exactly when an endpoint is not a node,
    the edge type assertion exactly when both are and the kind is not one of
    the four strings, and returns otherwise; the assertion on an edge
    without type never fires. *)
Theorem add_relation_outcomes g a b k t :
  reachable g ->
  add_relation a b k t g <> Raise UntypedEdge /\
  (add_relation a b k t g = Raise PrecursorMissing <->
   has_node a g && has_node b g = false) /\
  (add_relation a b k t g = Raise BadEdgeType <->
   has_node a g && has_node b g = true /\ str_in_list k edge_kinds = false) /\
  ((exists g', add_relation a b k t g = Ok g') <->
   has_node a g && has_node b g = true /\ str_in_list k edge_kinds = true).
Proof.
  intros Hg. apply reachable_edges_typed in Hg.
  destruct (has_node a g && has_node b g) eqn:Hn.
  - apply andb_true_iff in Hn as [Ha Hb].
    destruct (str_in_list k edge_kinds) eqn:Hk.
    + destruct (add_relation_returns a b k t g Hg Ha Hb Hk) as [g' Hg'].
      rewrite Hg'. split; [done|]. split; [by split|].
      split; [split; [done|by intros [_ ?]]|]. split; [done|eauto].
    + assert (add_relation a b k t g = Raise BadEdgeType) as ->
        by (unfold add_relation; by rewrite Ha, Hb, Hk).
      split; [done|]. split; [by split|]. split; [by split|].
      split; [by intros [? ?]|by intros [_ ?]].
  - assert (add_relation a b k t g = Raise PrecursorMissing) as ->
      by (unfold add_relation; by rewrite Hn).
    split; [done|]. split; [by split|]. split; [split; [done|by intros [? _]]|].
    split; [by intros [? ?]|by intros [? _]].
Qed.

Lemma add_relation_outcomes_witness :
  add_relation 1 2 "r" 5 two_users_quoted <> Raise UntypedEdge /\
  (add_relation 1 2 "r" 5 two_users_quoted = Raise PrecursorMissing <->
   has_node 1 two_users_quoted && has_node 2 two_users_quoted = false) /\
  (add_relation 1 2 "r" 5 two_users_quoted = Raise BadEdgeType <->
   has_node 1 two_users_quoted && has_node 2 two_users_quoted = true /\
   str_in_list "r" edge_kinds = false) /\
  ((exists g', add_relation 1 2 "r" 5 two_users_quoted = Ok g') <->
   has_node 1 two_users_quoted && has_node 2 two_users_quoted = true /\
   str_in_list "r" edge_kinds = true).
Proof.
  apply (add_relation_outcomes two_users_quoted 1 2 "r" 5).
  apply two_users_quoted_reachable.
Defined.

Lemma merge_type_idem ty k :
  str_in_list k edge_kinds = true -> merge_type (merge_type ty k) k = merge_type ty k.
Proof.
  intros Hk. unfold merge_type at 1. by rewrite merge_type_has.
Qed.

(** X6.  [add_relation] is idempotent, and more: the same interaction again, at
    the same time or later, changes nothing. *)
Theorem add_relation_again g g' a b k t t' :
  add_relation a b k t g = Ok g' -> t <= t' ->
  add_relation a b k t' g' = Ok g'.
Proof.
  intros H Hle. destruct (add_relation_checks _ _ _ _ _ _ H) as (Ha & Hb & Hk).
  destruct (add_relation_frame _ _ _ _ _ _ H) as [Hn _].
  destruct (add_relation_edge _ _ _ _ _ _ H) as (ty & He & Hty).
  rewrite add_relation_closed; [|unfold has_node in *; by rewrite Hn..|done].
  rewrite He. cbn [type creation_time]. f_equal.
  rewrite <- (graph_eta g') at 3. f_equal.
  apply insert_id. rewrite He. f_equal. f_equal.
  - f_equal. destruct (edge_type_of g a b); subst ty.
    + symmetry. by apply merge_type_idem.
    + unfold merge_type. by rewrite str_contains_kind, String.eqb_refl.
  - f_equal. symmetry. by apply merge_time_idem.
Qed.

Lemma add_relation_again_witness :
  exists g',
    add_relation 1 2 "R" 5 two_users = Ok g' /\ add_relation 1 2 "R" 9 g' = Ok g'.
Proof.
  eexists. split; [reflexivity|].
  apply (add_relation_again two_users _ 1 2 "R" 5 9); [reflexivity|lia].
Defined.

(** X7.  Relations between two different ordered pairs commute: when each call
    returns on the graph, both orders return, with the same graph. *)
Theorem add_relation_commute g g1 g2 a b k t c d k' t' :
  (a, b) <> (c, d) ->
  add_relation a b k t g = Ok g1 ->
  add_relation c d k' t' g = Ok g2 ->
  exists g', add_relation c d k' t' g1 = Ok g' /\ add_relation a b k t g2 = Ok g'.
Proof.
  intros Hne H1 H2.
  destruct (add_relation_checks _ _ _ _ _ _ H1) as (Ha & Hb & Hk).
  destruct (add_relation_checks _ _ _ _ _ _ H2) as (Hc & Hd & Hk').
  destruct (add_relation_frame _ _ _ _ _ _ H1) as [Hn1 Hf1].
  destruct (add_relation_frame _ _ _ _ _ _ H2) as [Hn2 Hf2].
  rewrite add_relation_closed in H1, H2 by done.
  rewrite !add_relation_closed; [|unfold has_node in *; try rewrite Hn1; try rewrite Hn2; done..].
  rewrite (Hf1 (c, d)) by done. rewrite (Hf2 (a, b)) by done.
  destruct (adj g !! (a, b)) as [e1|]; destruct (adj g !! (c, d)) as [e2|];
    repeat match goal with
           | H : context [type ?e] |- _ => destruct (type e); [|done]
           end;
    injection H1 as <-; injection H2 as <-; cbn [node adj];
    (eexists; split; [reflexivity|]); f_equal; f_equal;
    by apply insert_insert_ne.
Qed.

Lemma add_relation_commute_witness :
  exists g',
    add_relation 2 1 "M" 3
      (mkDiGraph (node two_users) (<[(1, 2) := mkEdgeAttr (Some "R") (Some 5)]> ∅))
      = Ok g' /\
    add_relation 1 2 "R" 5
      (mkDiGraph (node two_users) (<[(2, 1) := mkEdgeAttr (Some "M") (Some 3)]> ∅))
      = Ok g'.
Proof.
  apply (add_relation_commute two_users _ _ 1 2 "R" 5 2 1 "M" 3);
    [done|reflexivity..].
Defined.

(** A series of relations on an edge that exists. *)
Lemma add_relations_existing a b cs : forall g ty0 c0,
  has_node a g = true -> has_node b g = true ->
  adj g !! (a, b) = Some (mkEdgeAttr (Some ty0) (Some c0)) ->
  Forall (fun c => str_in_list (fst c) edge_kinds = true) cs ->
  exists g' ty c,
    add_relations a b cs g = Ok g' /\
    adj g' !! (a, b) = Some (mkEdgeAttr (Some ty) (Some c)) /\
    (forall k, str_in_list k edge_kinds = true ->
       str_contains k ty = str_contains k ty0 || existsb (String.eqb k) (map fst cs)) /\
    (c = c0 \/ In c (map snd cs)) /\ c <= c0 /\ Forall (fun t => c <= t) (map snd cs) /\
    node g' = node g /\
    (forall p, p <> (a, b) -> adj g' !! p = adj g !! p).
Proof.
  induction cs as [|[k t] cs IH]; intros g ty0 c0 Ha Hb He Hcs.
  - exists g, ty0, c0. cbn [add_relations map existsb]. split; [done|].
    split; [done|]. split; [intros; by rewrite orb_false_r|].
    split; [by left|]. split; [lia|]. by repeat split.
  - apply Forall_cons in Hcs as [Hk Hcs]. cbn [fst] in Hk.
    cbn [add_relations]. rewrite add_relation_closed by done. rewrite He.
    cbn [type creation_time and_then]. rewrite merge_time_min.
    match goal with
    | |- context [add_relations a b cs ?g1] =>
        destruct (IH g1 (merge_type ty0 k) (Z.min c0 t))
          as (g' & ty & c & Hrun & He' & Hkinds & Hin & Hle & Hall & Hn & Hf);
          [exact Ha|exact Hb|cbn [adj]; by rewrite lookup_insert_eq|exact Hcs|]
    end.
    exists g', ty, c. split; [exact Hrun|]. split; [exact He'|].
    cbn [node adj] in Hn, Hf. split; [|split; [|split; [|split; [|split]]]].
    + intros k' Hk'. rewrite Hkinds by done. rewrite merge_type_kind by done.
      cbn [map fst existsb]. by rewrite orb_assoc.
    + cbn [map snd In]. destruct Hin as [->|Hin]; [|by right; right].
      destruct (Z.min_spec c0 t) as [[_ ->]|[_ ->]]; [by left|by right; left].
    + lia.
    + cbn [map snd]. apply Forall_cons. split; [lia|done].
    + done.
    + intros p Hp. rewrite (Hf p Hp). by apply lookup_insert_ne.
Qed.

(** X8.  A series of relations between two nodes without an edge yet: every call
    returns; the edge left has a type attribute that contains exactly the
    kinds of the calls, and its creation time is the least of their time
    stamps; nodes and other edges are as before. *)
Theorem add_relations_fresh g a b k0 t0 cs :
  has_node a g = true -> has_node b g = true ->
  adj g !! (a, b) = None ->
  Forall (fun c => str_in_list (fst c) edge_kinds = true) ((k0, t0) :: cs) ->
  exists g' ty c,
    add_relations a b ((k0, t0) :: cs) g = Ok g' /\
    adj g' !! (a, b) = Some (mkEdgeAttr (Some ty) (Some c)) /\
    (forall k, str_in_list k edge_kinds = true ->
       str_contains k ty = existsb (String.eqb k) (k0 :: map fst cs)) /\
    In c (t0 :: map snd cs) /\ Forall (fun t => c <= t) (t0 :: map snd cs) /\
    node g' = node g /\
    (forall p, p <> (a, b) -> adj g' !! p = adj g !! p).
Proof.
  intros Ha Hb He Hcs. apply Forall_cons in Hcs as [Hk Hcs]. cbn [fst] in Hk.
  cbn [add_relations]. rewrite add_relation_closed by done. rewrite He.
  cbn [and_then].
  match goal with
  | |- context [add_relations a b cs ?g1] =>
      destruct (add_relations_existing a b cs g1 k0 t0)
        as (g' & ty & c & Hrun & He' & Hkinds & Hin & Hle & Hall & Hn & Hf);
        [exact Ha|exact Hb|cbn [adj]; by rewrite lookup_insert_eq|exact Hcs|]
  end.
  exists g', ty, c. split; [exact Hrun|]. split; [exact He'|].
  cbn [node adj] in Hn, Hf. split; [|split; [|split; [|split]]].
  - intros k Hk'. rewrite Hkinds by done. cbn [existsb].
    by rewrite str_contains_kind.
  - cbn [In]. destruct Hin as [->|Hin]; [by left|by right].
  - apply Forall_cons. split; [lia|done].
  - done.
  - intros p Hp. rewrite (Hf p Hp). by apply lookup_insert_ne.
Qed.

Lemma add_relations_fresh_witness :
  exists g' ty c,
    add_relations 1 2 [("M", 7); ("R", 5); ("M", 9)] two_users = Ok g' /\
    adj g' !! (1, 2) = Some (mkEdgeAttr (Some ty) (Some c)) /\
    (forall k, str_in_list k edge_kinds = true ->
       str_contains k ty = existsb (String.eqb k) ("M" :: map fst [("R", 5); ("M", 9)])) /\
    In c (7 :: map snd [("R", 5); ("M", 9)]) /\
    Forall (fun t => c <= t) (7 :: map snd [("R", 5); ("M", 9)]) /\
    node g' = node two_users /\
    (forall p, p <> (1, 2) -> adj g' !! p = adj two_users !! p).
Proof.
  apply (add_relations_fresh two_users 1 2 "M" 7 [("R", 5); ("M", 9)]);
    [reflexivity..|].
  repeat constructor.
Defined.

(** ** Invariants of the graphs the builder can reach *)

Lemma step_edges_between_nodes g g' :
  step g g' -> edges_between_nodes g -> edges_between_nodes g'.
Proof.
  intros Hs Hg a b e He.
  assert (forall n, has_node n g = true -> has_node n g' = true) as Hmono
    by (intros; by eapply step_has_node).
  destruct Hs as [u ts g g' H|a' b' k t g g' H].
  - rewrite (add_user_edges _ _ _ _ H) in He.
    destruct (Hg a b e He). split; by apply Hmono.
  - destruct (add_relation_checks _ _ _ _ _ _ H) as (Ha & Hb & _).
    destruct (add_relation_frame _ _ _ _ _ _ H) as [_ Hf].
    destruct (decide ((a, b) = (a', b'))) as [[= -> ->]|Hne].
    + split; by apply Hmono.
    + rewrite (Hf _ Hne) in He. destruct (Hg a b e He). split; by apply Hmono.
Qed.

Lemma edges_between_nodes_of_reachable g : reachable g -> edges_between_nodes g.
Proof.
  induction 1 as [|g g' _ IH Hs].
  - intros a b e He. cbn [empty_graph adj] in He. by rewrite lookup_empty in He.
  - by apply (step_edges_between_nodes g).
Qed.

(** X9.  No edge without its endpoints: in every graph the builder can reach,
    both ends of an edge are nodes of the graph. *)
Theorem reachable_edges_between_nodes g a b e :
  reachable g -> adj g !! (a, b) = Some e ->
  is_Some (node g !! a) /\ is_Some (node g !! b).
Proof.
  intros Hg He.
  destruct (edges_between_nodes_of_reachable g Hg a b e He) as [Ha Hb].
  by rewrite <- !has_node_true.
Qed.

Lemma reachable_edges_between_nodes_witness :
  is_Some (node two_users_quoted !! 1) /\ is_Some (node two_users_quoted !! 2).
Proof.
  apply (reachable_edges_between_nodes two_users_quoted 1 2
           (mkEdgeAttr (Some "Q") (Some 0)));
    [apply two_users_quoted_reachable|reflexivity].
Defined.

Lemma str_contains_char_In c s :
  str_contains (String c "") s = true <-> In c (String.list_ascii_of_string s).
Proof.
  induction s as [|a s IH]; cbn [str_contains starts_with String.list_ascii_of_string In].
  - split; [done|tauto].
  - rewrite orb_true_iff, IH. destruct (Ascii.eqb_spec c a) as [->|Hne].
    + split; [by left|]. intros _. left. by destruct s.
    + cbn [andb]. split; [intros [?|?]; [done|by right]|].
      intros [?|?]; [congruence|by right].
Qed.

Lemma list_ascii_of_string_snoc s c :
  String.list_ascii_of_string (s +:+ String c "") = String.list_ascii_of_string s ++ [c].
Proof. induction s as [|a s IH]; [done|]. simpl. by rewrite IH. Qed.

Lemma kind_letter k :
  str_in_list k edge_kinds = true -> exists c, k = String c "" /\ In c kind_letters.
Proof.
  intros H. destruct (kind_cases k H) as [-> | [-> | [-> | ->]]];
    eexists; (split; [reflexivity|]); simpl; tauto.
Qed.

Lemma merge_type_well_formed ty k t :
  str_in_list k edge_kinds = true ->
  edge_well_formed (mkEdgeAttr (Some ty) (Some t)) ->
  forall t', edge_well_formed (mkEdgeAttr (Some (merge_type ty k)) (Some t')).
Proof.
  intros (c & -> & Hc)%kind_letter (ty' & t0 & [= <- <-] & Hne & Hnd & Hall) t'.
  exists (merge_type ty (String c "")), t'. split; [done|]. unfold merge_type.
  destruct (str_contains (String c "") ty) eqn:Hin; [done|].
  assert (~ In c (String.list_ascii_of_string ty)) as Hnot.
  { rewrite <- str_contains_char_In. by rewrite Hin. }
  rewrite list_ascii_of_string_snoc. split; [by destruct ty|]. split.
  - apply NoDup_app. split; [done|]. split; [|apply NoDup_singleton].
    intros x Hx%list_elem_of_In ->%list_elem_of_singleton. done.
  - apply Forall_app. split; [done|]. by apply Forall_singleton.
Qed.

Lemma step_edges_well_formed g g' :
  step g g' -> edges_well_formed g -> edges_well_formed g'.
Proof.
  destruct 1 as [u ts g g' H|a b k t g g' H]; intros Hg p e He.
  - rewrite (add_user_edges _ _ _ _ H) in He. by apply (Hg p).
  - destruct (add_relation_checks _ _ _ _ _ _ H) as (Ha & Hb & Hk).
    destruct (add_relation_frame _ _ _ _ _ _ H) as [_ Hf].
    destruct (decide (p = (a, b))) as [->|Hne]; [|rewrite (Hf _ Hne) in He; by apply (Hg p)].
    rewrite add_relation_closed in H by done.
    destruct (adj g !! (a, b)) as [e0|] eqn:He0.
    + destruct (Hg _ _ He0) as (ty0 & t0 & -> & Hwf). cbn [type creation_time] in H.
      injection H as <-. cbn [adj] in He. rewrite lookup_insert_eq in He.
      injection He as <-. apply (merge_type_well_formed ty0 k t0); [done|].
      by exists ty0, t0.
    + injection H as <-. cbn [adj] in He. rewrite lookup_insert_eq in He.
      injection He as <-. apply kind_letter in Hk as (c & -> & Hc).
      exists (String c ""), t. split; [done|]. split; [done|]. split.
      * apply NoDup_singleton.
      * by apply Forall_singleton.
Qed.

Lemma edges_well_formed_of_reachable g : reachable g -> edges_well_formed g.
Proof.
  induction 1 as [|g g' _ IH Hs].
  - intros p e He. cbn [empty_graph adj] in He. by rewrite lookup_empty in He.
  - by apply (step_edges_well_formed g).
Qed.

(** X10.  The shape of every edge of a graph the builder can reach: a creation
    time, and a type attribute that is a non-empty string of the letters R,
    M, Q, C with no letter twice, hence of at most four letters. *)
Theorem reachable_edges_well_formed g p e :
  reachable g -> adj g !! p = Some e ->
  edge_well_formed e /\
  exists ty, type e = Some ty /\ (1 <= String.length ty <= 4)%nat.
Proof.
  intros Hg He.
  pose proof (edges_well_formed_of_reachable g Hg p e He) as Hwfe. split; [exact Hwfe|].
  destruct Hwfe as (ty & t & -> & Hne & Hnd & Hall).
  exists ty. split; [done|]. split; [destruct ty; [done|simpl; lia]|].
  assert (String.length ty = length (String.list_ascii_of_string ty)) as ->.
  { clear. induction ty as [|a s IH]; [done|]. simpl. by rewrite IH. }
  change 4%nat with (length kind_letters).
  apply List.NoDup_incl_length; [by apply NoDup_ListNoDup|].
  intros c Hc. by apply (proj1 (Forall_forall _ _) Hall), list_elem_of_In.
Qed.

Lemma reachable_edges_well_formed_witness :
  edge_well_formed (mkEdgeAttr (Some "Q") (Some 0)) /\
  exists ty, type (mkEdgeAttr (Some "Q") (Some 0)) = Some ty /\
             (1 <= String.length ty <= 4)%nat.
Proof.
  apply (reachable_edges_well_formed two_users_quoted (1, 2));
    [apply two_users_quoted_reachable|reflexivity].
Defined.

(** ** What the scan may do *)

Lemma scan_frame_refl w : scan_frame w w.
Proof. split; [apply steps_refl|]. exists []. by rewrite app_nil_r. Qed.

Lemma scan_frame_trans w1 w2 w3 : scan_frame w1 w2 -> scan_frame w2 w3 -> scan_frame w1 w3.
Proof.
  intros (Hs1 & l1 & Hl1 & Ha1) (Hs2 & l2 & Hl2 & Ha2).
  split; [by eapply steps_trans|]. exists (l1 ++ l2).
  split; [by rewrite Hl2, Hl1, app_assoc|by apply Forall_app].
Qed.

Lemma record_frame_refl uid w : record_frame uid w w.
Proof. split; [apply scan_frame_refl|done]. Qed.

Lemma record_frame_trans uid w1 w2 w3 :
  record_frame uid w1 w2 -> record_frame uid w2 w3 -> record_frame uid w1 w3.
Proof.
  intros (Hs1 & He1 & Ha1 & Ho1) (Hs2 & He2 & Ha2 & Ho2).
  split; [by eapply scan_frame_trans|]. split; [|split; [|congruence]].
  - intros a b Hne. by rewrite He2, He1.
  - intros u Hne. by rewrite Ha2, Ha1.
Qed.

Section Moves.

Context {R : World -> World -> Prop}.
Hypothesis R_refl : forall w, R w w.
Hypothesis R_trans : forall w1 w2 w3, R w1 w2 -> R w2 w3 -> R w1 w3.

Lemma moves_ret {A} (a : A) : moves R (ret a).
Proof. intros w r w' [= <- <-]. apply R_refl. Qed.

Lemma moves_raise {A} e : moves R (raise (A := A) e).
Proof. intros w r w' [= <- <-]. apply R_refl. Qed.

Lemma moves_lift {A} (r : result A) : moves R (lift r).
Proof. intros w r' w' [= <- <-]. apply R_refl. Qed.

Lemma moves_bind {A B} (m : M A) (k : A -> M B) :
  moves R m -> (forall a, moves R (k a)) -> moves R (bind m k).
Proof.
  intros Hm Hk w r w'. unfold bind.
  destruct (m w) as [[a|e] w1] eqn:Hmw; pose proof (Hm _ _ _ Hmw) as H1.
  - intros Hkw. eapply R_trans; [exact H1|]. by eapply Hk.
  - by intros [= <- <-].
Qed.

Lemma moves_for_each {A} (l : list A) (body : A -> M unit) :
  (forall x, moves R (body x)) -> moves R (for_each l body).
Proof.
  intros Hbody. induction l as [|x l IH]; cbn [for_each].
  - apply moves_ret.
  - apply moves_bind; [apply Hbody|done].
Qed.

End Moves.

Lemma moves_weaken {A} (R R' : World -> World -> Prop) (m : M A) :
  (forall w w', R w w' -> R' w w') -> moves R m -> moves R' m.
Proof. intros HR Hm w r w' Hrun. apply HR. by eapply Hm. Qed.

Lemma framed_step uid (f : DiGraph -> result DiGraph) :
  (forall g g', f g = Ok g' ->
     step g g' /\
     (forall a b, a <> uid -> adj g' !! (a, b) = adj g !! (a, b)) /\
     (forall u, u <> uid -> adoption g' u = adoption g u)) ->
  moves (record_frame uid) (on_network f).
Proof.
  intros Hf w r w'. unfold on_network.
  destruct (f (network w)) as [g'|e] eqn:Hg; intros [= <- <-].
  - destruct (Hf _ _ Hg) as (Hs & He & Ha).
    split; [split; [by apply steps_one|]|done].
    exists []. by rewrite app_nil_r.
  - apply record_frame_refl.
Qed.

Lemma add_user_adoption u ts g g' v :
  add_user u ts g = Ok g' -> v <> u \/ ts = None -> adoption g' v = adoption g v.
Proof.
  rewrite add_user_closed. intros [= <-] Hv. unfold adoption. cbn [node].
  destruct (decide (u = v)) as [->|Hne].
  - destruct Hv as [? | ->]; [done|]. rewrite lookup_insert_eq. done.
  - by rewrite lookup_insert_ne.
Qed.

(** The author's own node, with or without a time stamp. *)
Lemma framed_add_author uid ts : moves (record_frame uid) (on_network (add_user uid ts)).
Proof.
  apply framed_step. intros g g' H. split; [by apply (step_add_user uid ts)|].
  split.
  - intros a b _. by rewrite (add_user_edges _ _ _ _ H).
  - intros u Hu. apply (add_user_adoption _ _ _ _ _ H). by left.
Qed.

(** A user referred to: a node without a time stamp. *)
Lemma framed_add_other uid u : moves (record_frame uid) (on_network (add_user u None)).
Proof.
  apply framed_step. intros g g' H. split; [by apply (step_add_user u None)|].
  split.
  - intros a b _. by rewrite (add_user_edges _ _ _ _ H).
  - intros v _. apply (add_user_adoption _ _ _ _ _ H). by right.
Qed.

(** A relation that starts at the author. *)
Lemma framed_add_relation uid b k t :
  moves (record_frame uid) (on_network (add_relation uid b k t)).
Proof.
  apply framed_step. intros g g' H. split; [by apply (step_add_relation uid b k t)|].
  destruct (add_relation_frame _ _ _ _ _ _ H) as [Hn Hf]. split.
  - intros a c Hne. apply Hf. congruence.
  - intros u _. unfold adoption. by rewrite Hn.
Qed.

Lemma framed_anomaly uid x : moves (record_frame uid) (logging (ErrorAbnormalMention x)).
Proof.
  intros w r w' [= <- <-]. split; [|done]. split; [apply steps_refl|].
  cbn [log]. eexists. split; [done|]. by apply Forall_singleton.
Qed.

Lemma framed_access uid a : moves (record_frame uid) (access_store a).
Proof.
  intros w r w' [= <- <-]. split; [|done]. split; [apply steps_refl|].
  exists []. by rewrite app_nil_r.
Qed.

Section RecordFrame.

Context {lib : PyLib}.

Ltac framed uid :=
  repeat first
    [ apply (moves_ret (record_frame_refl uid))
    | apply (moves_lift (record_frame_refl uid))
    | apply framed_add_author
    | apply framed_add_other
    | apply framed_add_relation
    | apply framed_anomaly
    | apply framed_access
    | apply (moves_bind (record_frame_trans uid)); [|intros ?]
    | apply (moves_for_each (record_frame_refl uid) (record_frame_trans uid)); intros ?
    | match goal with
      | |- moves _ (if ?b then _ else _) => destruct b
      | |- moves _ (match ?x with _ => _ end) => destruct x
      end ].

(** Whatever the record is and however its processing ends, only the author
    given by its ["user"]["id"] is concerned; without one nothing happens. *)
Lemma process_tweet_framed tweet w r w' :
  process_tweet tweet w = (r, w') ->
  match int_at2 tweet "user" "id" with
  | Ok uid => record_frame uid w w'
  | Raise _ => w' = w
  end.
Proof.
  unfold process_tweet. unfold bind at 1. unfold lift at 1.
  destruct (int_at2 tweet "user" "id") as [uid|e]; [|by intros [= <- <-]].
  revert w r w'. change (moves (record_frame uid)
    (let* created := lift (py_getitem tweet "created_at") in
     let* create_at := lift (py_timestamp created) in
     on_network (add_user uid (Some create_at)) >>
     (let* original_retweet_mentions :=
        embedded_branch RETWEET_FIELD "R" tweet uid create_at (VList []) in
      let* original_quote_mentions :=
        embedded_branch QUOTE_FIELD "Q" tweet uid create_at (VList []) in
      mention_branch tweet uid create_at
        original_retweet_mentions original_quote_mentions >>
      reply_branch tweet uid create_at))).
  unfold embedded_branch, mention_branch, mention_body, reply_branch.
  framed uid.
Qed.

End RecordFrame.

(** ** The scan on any store *)

Section ScanOnAnyStore.

Context {lib : PyLib}.

Lemma process_tweet_scan_frame tweet w r w' :
  process_tweet tweet w = (r, w') -> scan_frame w w' /\ stdout w' = stdout w.
Proof.
  intros H. apply process_tweet_framed in H.
  destruct (int_at2 tweet "user" "id").
  - by destruct H as (? & _ & _ & ?).
  - subst w'. split; [apply scan_frame_refl|done].
Qed.

Lemma records_scan_frame l w r w' :
  for_each l process_tweet w = (r, w') -> scan_frame w w' /\ stdout w' = stdout w.
Proof.
  revert w r w'.
  change (moves (fun w w' => scan_frame w w' /\ stdout w' = stdout w)
                (for_each l process_tweet)).
  apply moves_for_each.
  - intros w. split; [apply scan_frame_refl|done].
  - intros w1 w2 w3 [Hs1 Ho1] [Hs2 Ho2].
    split; [by eapply scan_frame_trans|congruence].
  - intros tweet w r w'. apply process_tweet_scan_frame.
Qed.

Lemma query_tweets_unfold tweets hashtag w :
  hashtag <> "" ->
  query_tweets tweets hashtag w =
  match for_each (find_tweets tweets hashtag) process_tweet (scan_started hashtag w) with
  | (Ok _, w1) =>
      (Ok tt, mkWorld (network w1) (log w1) (store_trace w1) (stdout w1 ++ ["Done"]))
  | (Raise e, w1) => (Raise e, w1)
  end.
Proof.
  intros Hne%String.eqb_neq. unfold query_tweets. rewrite Hne.
  unfold bind at 1 2 3, logging, access_store.
  cbn [network log store_trace stdout]. unfold bind, print, scan_started.
  by destruct (for_each _ _ _) as [[[]|e] w1].
Qed.

(** X11.  Whatever the store holds, records that cannot be read included, and
    whether the scan returns or raises, the graph it leaves is reached from
    the one it found by steps of the builder: it can still be reached, no
    node is lost, and every adoption time, edge, kind and creation time
    evolves as under single calls. *)
Theorem scan_moves_by_steps tweets hashtag w r w' :
  reachable (network w) ->
  query_tweets tweets hashtag w = (r, w') ->
  reachable (network w') /\
  evolves (network w) (network w') /\
  (forall n, has_node n (network w) = true -> has_node n (network w') = true).
Proof.
  intros Hw Hrun.
  assert (steps (network w) (network w')) as Hs.
  { destruct (decide (hashtag = "")) as [->|Hne].
    - injection Hrun as <- <-. apply steps_refl.
    - rewrite query_tweets_unfold in Hrun by done.
      destruct (for_each _ _ _) as [[[]|e] w1] eqn:Hloop;
        apply records_scan_frame in Hloop as [[Hs _] _];
        injection Hrun as <- <-; exact Hs. }
  split; [by eapply steps_reachable|]. split; [by apply steps_evolves|].
  intros n. by apply steps_has_node.
Qed.

(** X12.  What the scan writes: after its two opening lines, the log gains
    anomalies only; and ["Done"] is printed exactly when the scan returns. *)
Theorem scan_journal tweets hashtag w r w' :
  hashtag <> "" ->
  query_tweets tweets hashtag w = (r, w') ->
  (exists l, log w' = log w ++ InfoQueryBegin :: InfoQueryString hashtag :: l /\
             Forall (fun x => is_anomaly x = true) l) /\
  stdout w' = stdout w ++ match r with Ok _ => ["Done"] | Raise _ => [] end.
Proof.
  intros Hne Hrun. rewrite query_tweets_unfold in Hrun by done.
  destruct (for_each _ _ _) as [[[]|e] w1] eqn:Hloop;
    apply records_scan_frame in Hloop as [[_ (l & Hl & Hall)] Hout];
    injection Hrun as <- <-; cbn [log stdout scan_started] in *.
  - split; [|by rewrite Hout]. exists l. split; [|done].
    by rewrite Hl, <- !app_assoc.
  - split; [|by rewrite Hout, app_nil_r]. exists l. split; [|done].
    by rewrite Hl, <- !app_assoc.
Qed.

(** X13.  A record changes only edges that start at its author: every edge from
    another user is as it was, whatever the record is and however its
    processing ends. *)
Theorem record_touches_author_edges tweet w r w' a b :
  process_tweet tweet w = (r, w') ->
  int_at2 tweet "user" "id" <> Ok a ->
  adj (network w') !! (a, b) = adj (network w) !! (a, b).
Proof.
  intros H Ha. apply process_tweet_framed in H.
  destruct (int_at2 tweet "user" "id") as [uid|]; [|by subst].
  destruct H as (_ & He & _). apply He. congruence.
Qed.

(** X14.  A record gives an adoption time to its author only: the users it
    retweets, quotes, mentions or replies to keep the adoption time they
    had, or none. *)
Theorem record_adopts_author_only tweet w r w' u :
  process_tweet tweet w = (r, w') ->
  int_at2 tweet "user" "id" <> Ok u ->
  adoption (network w') u = adoption (network w) u.
Proof.
  intros H Hu. apply process_tweet_framed in H.
  destruct (int_at2 tweet "user" "id") as [uid|]; [|by subst].
  destruct H as (_ & _ & Ha & _). apply Ha. congruence.
Qed.

Lemma for_each_stops {A} (body : A -> M unit) pre bad post w w1 e w2 :
  for_each pre body w = (Ok tt, w1) ->
  body bad w1 = (Raise e, w2) ->
  for_each (pre ++ bad :: post) body w = (Raise e, w2).
Proof.
  revert w. induction pre as [|x pre IH]; intros w Hpre Hbad.
  - injection Hpre as <-. cbn [app for_each]. unfold bind. by rewrite Hbad.
  - cbn [app for_each] in *. unfold bind in *.
    destruct (body x w) as [[[]|e'] wx]; [|done]. by apply IH.
Qed.

(** X15.  The first record that raises ends the scan with its exception: the
    records after it are not processed, and the world is the one that
    record left, with all that the records before it did. *)
Theorem scan_stops_at_first_failure tweets hashtag pre bad post w w1 e w2 :
  hashtag <> "" ->
  find_tweets tweets hashtag = pre ++ bad :: post ->
  for_each pre process_tweet (scan_started hashtag w) = (Ok tt, w1) ->
  process_tweet bad w1 = (Raise e, w2) ->
  query_tweets tweets hashtag w = (Raise e, w2).
Proof.
  intros Hne Hfind Hpre Hbad. rewrite query_tweets_unfold by done.
  rewrite Hfind. by rewrite (for_each_stops _ _ _ _ _ _ _ _ Hpre Hbad).
Qed.

Lemma records_of_expected_form_return l : forall w0,
  reachable (network w0) ->
  Forall (fun tweet => exists v, views tweet v) l ->
  exists w1, for_each l process_tweet w0 = (Ok tt, w1) /\
             reachable (network w1) /\ stdout w1 = stdout w0.
Proof.
  induction l as [|tweet l IH]; intros w0 Hw0 Hl.
  - by exists w0.
  - apply Forall_cons in Hl as [[v Hv] Hl].
    destruct (process_tweet_settled tweet v w0 Hv (reachable_edges_typed _ Hw0))
      as (w1 & Hrun & (Hs & _) & _).
    destruct (process_tweet_scan_frame _ _ _ _ Hrun) as [_ Hout1].
    destruct (IH w1) as (w2 & Hrun2 & Hw2 & Hout2);
      [by eapply steps_reachable|done|].
    exists w2. cbn [for_each]. rewrite (bind_ok _ _ _ _ _ Hrun).
    split; [done|]. split; [done|congruence].
Qed.

(** X16.  On a store whose matching records all have the expected form, the scan
    returns, whatever their mention entries are: it prints ["Done"], and the
    graph can still be reached. *)
Theorem scan_of_expected_records_returns tweets hashtag w :
  hashtag <> "" ->
  reachable (network w) ->
  Forall (fun tweet => exists v, views tweet v) (find_tweets tweets hashtag) ->
  exists w',
    query_tweets tweets hashtag w = (Ok tt, w') /\
    reachable (network w') /\
    stdout w' = stdout w ++ ["Done"].
Proof.
  intros Hne Hw Hall. rewrite query_tweets_unfold by done.
  destruct (records_of_expected_form_return _ (scan_started hashtag w) Hw Hall)
    as (w1 & -> & Hw1 & Hout).
  eexists. split; [done|]. cbn [network stdout]. split; [done|].
  by rewrite Hout.
Qed.

End ScanOnAnyStore.

(** ** Single records *)

Lemma adoption_kept_refl w : adoption_kept w w.
Proof. by intros u. Qed.

Lemma adoption_kept_trans w1 w2 w3 :
  adoption_kept w1 w2 -> adoption_kept w2 w3 -> adoption_kept w1 w3.
Proof. intros H1 H2 u. by rewrite H2. Qed.

Lemma kept_add_other u : moves adoption_kept (on_network (add_user u None)).
Proof.
  intros w r w'. unfold on_network.
  destruct (add_user u None (network w)) as [g'|e] eqn:Hg; intros [= <- <-]; [|done].
  intros v. cbn [network]. apply (add_user_adoption _ _ _ _ _ Hg). by right.
Qed.

Lemma kept_add_relation a b k t : moves adoption_kept (on_network (add_relation a b k t)).
Proof.
  intros w r w'. unfold on_network.
  destruct (add_relation a b k t (network w)) as [g'|e] eqn:Hg;
    intros [= <- <-]; [|done].
  destruct (add_relation_frame _ _ _ _ _ _ Hg) as [Hn _].
  intros v. cbn [network]. unfold adoption. by rewrite Hn.
Qed.

Lemma kept_logging x : moves adoption_kept (logging x).
Proof. by intros w r w' [= <- <-]. Qed.

Lemma kept_access a : moves adoption_kept (access_store a).
Proof. by intros w r w' [= <- <-]. Qed.

Section SingleRecords.

Context {lib : PyLib}.

Ltac kept :=
  repeat first
    [ apply (moves_ret adoption_kept_refl)
    | apply (moves_lift adoption_kept_refl)
    | apply kept_add_other
    | apply kept_add_relation
    | apply kept_logging
    | apply kept_access
    | apply (moves_bind adoption_kept_trans); [|intros ?]
    | apply (moves_for_each adoption_kept_refl adoption_kept_trans); intros ?
    | match goal with
      | |- moves _ (if ?b then _ else _) => destruct b
      | |- moves _ (match ?x with _ => _ end) => destruct x
      end ].

(** X17.  Once the author and the time stamp of a record are read, the author's
    adoption time is settled, however the rest of the record fares: the time
    stamp if the author had none, the earlier of the two otherwise. *)
Theorem record_settles_author_adoption tweet uid c t w r w' :
  int_at2 tweet "user" "id" = Ok uid ->
  py_getitem tweet "created_at" = Ok c -> py_timestamp c = Ok t ->
  process_tweet tweet w = (r, w') ->
  adoption (network w') uid =
  Some (match adoption (network w) uid with
        | Some t0 => Z.min t0 t
        | None => t
        end).
Proof.
  intros Huid Hc Ht. unfold process_tweet.
  rewrite (bind_ok _ _ w uid w) by (unfold lift; by rewrite Huid).
  rewrite (bind_ok _ _ w c w) by (unfold lift; by rewrite Hc).
  rewrite (bind_ok _ _ w t w) by (unfold lift; by rewrite Ht).
  assert (exists w1, on_network (add_user uid (Some t)) w = (Ok tt, w1) /\
            adoption (network w1) uid =
            Some (merge_time (adoption (network w) uid) t)) as (w1 & Hrun1 & Ha1).
  { unfold on_network. rewrite add_user_closed. eexists. split; [done|].
    unfold adoption at 1. cbn [network node]. by rewrite lookup_insert_eq. }
  rewrite (bind_ok _ _ _ _ _ Hrun1). intros Hrest.
  assert (adoption_kept w1 w') as Hkept.
  { revert Hrest. generalize w1 r w'.
    change (moves adoption_kept
      (let* original_retweet_mentions :=
         embedded_branch RETWEET_FIELD "R" tweet uid t (VList []) in
       let* original_quote_mentions :=
         embedded_branch QUOTE_FIELD "Q" tweet uid t (VList []) in
       mention_branch tweet uid t
         original_retweet_mentions original_quote_mentions >>
       reply_branch tweet uid t)).
    unfold embedded_branch, mention_branch, mention_body, reply_branch.
    kept. }
  rewrite Hkept, Ha1. f_equal.
  destruct (adoption (network w) uid); [apply merge_time_min|done].
Qed.

(** X18.  A record without retweet, quote, mention or reply adds its author, with
    the record's time stamp, and does nothing else. *)
Theorem plain_record_adds_author tweet v w :
  views tweet v ->
  retweeted v = None -> quoted v = None -> reply_to v = None ->
  mentioned v = None \/ mentioned v = Some [] ->
  exists g',
    add_user (author v) (Some (created v)) (network w) = Ok g' /\
    process_tweet tweet w = (Ok tt, mkWorld g' (log w) (store_trace w) (stdout w)).
Proof.
  intros (d & -> & Huid & (c & Hc & Ht) & Hid & Hrt & Hqt & (ents & Hents & Hm) & Hr)
         Hrt0 Hqt0 Hr0 Hm0.
  rewrite Hrt0 in Hrt. rewrite Hqt0 in Hqt. rewrite Hr0 in Hr.
  cbn [embedded_view] in Hrt, Hqt.
  destruct (add_user_total (author v) (Some (created v)) (network w)) as [g' Hg'].
  exists g'. split; [done|]. unfold process_tweet.
  rewrite (bind_ok _ _ w (author v) w) by (unfold lift; by rewrite Huid).
  rewrite (bind_ok _ _ w c w) by (unfold lift, py_getitem; by rewrite Hc).
  rewrite (bind_ok _ _ w (created v) w) by (unfold lift; by rewrite Ht).
  set (w1 := mkWorld g' (log w) (store_trace w) (stdout w)).
  rewrite (bind_ok _ _ w tt w1) by (unfold on_network; by rewrite Hg').
  rewrite (bind_ok _ _ w1 (VList []) w1).
  2:{ unfold embedded_branch. rewrite (bind_ok _ _ w1 false w1); [done|].
      unfold lift. rewrite py_in_key.
      by rewrite bool_decide_eq_false_2 by (rewrite Hrt; by intros [? ?]). }
  rewrite (bind_ok _ _ w1 (VList []) w1).
  2:{ unfold embedded_branch. rewrite (bind_ok _ _ w1 false w1); [done|].
      unfold lift. rewrite py_in_key.
      by rewrite bool_decide_eq_false_2 by (rewrite Hqt; by intros [? ?]). }
  rewrite (bind_ok _ _ w1 tt w1).
  2:{ unfold mention_branch.
      rewrite (bind_ok _ _ w1 (VDict ents) w1)
        by (unfold lift, py_getitem; by rewrite Hents).
      rewrite (bind_ok _ _ w1 (bool_decide (is_Some (dict_get "user_mentions" ents))) w1)
        by (unfold lift; by rewrite py_in_key).
      destruct Hm0 as [Hm0|Hm0]; rewrite Hm0 in Hm.
      - by rewrite bool_decide_eq_false_2 by (rewrite Hm; by intros [? ?]).
      - rewrite bool_decide_eq_true_2 by (rewrite Hm; eauto).
        rewrite (bind_ok _ _ w1 (VList []) w1)
          by (unfold lift, getitem2, py_getitem; by rewrite Hents, Hm).
        by rewrite (bind_ok _ _ w1 [] w1). }
  unfold reply_branch.
  rewrite (bind_ok _ _ w1 (bool_decide (is_Some (dict_get REPLY_FIELD d))) w1)
    by (unfold lift; by rewrite py_in_key).
  destruct Hr as [Hr|Hr].
  - by rewrite bool_decide_eq_false_2 by (rewrite Hr; by intros [? ?]).
  - rewrite bool_decide_eq_true_2 by (rewrite Hr; eauto).
    by rewrite (bind_ok _ _ w1 VNone w1) by (unfold lift, py_getitem; by rewrite Hr).
Qed.

(** X19.  The already counted mentions are compared entry by entry, not user by
    user: a top-level entry that names user [x] and is not, as a whole, in
    the mention list of the retweeted or quoted record makes the mention
    edge from the author to [x], whether or not those lists name [x] in an
    entry of their own. *)
Theorem fresh_mention_makes_edge tweet v l m x w :
  views tweet v -> reachable (network w) ->
  mentioned v = Some l -> In m l -> fresh_mention v m x ->
  exists w',
    process_tweet tweet w = (Ok tt, w') /\
    edge_has_kind (network w') (author v) x "M" = true.
Proof.
  intros Hv Hw Hl Hin Hfresh.
  destruct (process_tweet_settled tweet v w Hv (reachable_edges_typed _ Hw))
    as (w' & Hrun & (_ & _ & _ & Hmade) & _).
  exists w'. split; [done|]. apply (Hmade m x); [|done]. by rewrite Hl.
Qed.

End SingleRecords.

(** ** The script *)

Section Script.

Context {lib : PyLib}.

Variable writer_accepts : string -> DiGraph -> bool.



(** X21.  Run from its start with a non-empty hashtag on a store whose
    matching records have the expected form, the script never ends with an
    exception of the scan: it completes, having written its one file, when
    the writer takes the file name and the graph, and ends with the
    exception of the writer, nothing written, when it does not. *)
Theorem main_on_expected_records tweets tv_show :
  tv_show <> "" ->
  Forall (fun tweet => exists v, views tweet v) (find_tweets tweets tv_show) ->
  exists s',
    let g := network (world s') in
    reachable g /\
    if writer_accepts (tv_show +:+ ".graphml") g then
      main writer_accepts tweets tv_show initial_session = (Completed, s') /\
      written s' = [(tv_show +:+ ".graphml", g)]
    else
      main writer_accepts tweets tv_show initial_session = (WriterRaised, s') /\
      written s' = [].
Proof.
  intros Hne Hall.
  destruct (records_of_expected_form_return _ (scan_started tv_show initial_world)
              reach_empty Hall) as (w1 & Hloop & Hw1 & _).
  unfold main. cbn [main_logging initial_session world main_log written].
  rewrite query_tweets_unfold by done. rewrite Hloop.
  unfold draw_and_save. cbn [main_logging world main_log written network].
  destruct (writer_accepts (tv_show +:+ ".graphml") (network w1)) eqn:Hacc.
  - match goal with |- context [(Completed, ?S)] => exists S end.
    cbv zeta. cbn [world network written]. split; [exact Hw1|]. by rewrite Hacc.
  - match goal with |- context [(WriterRaised, ?S)] => exists S end.
    cbv zeta. cbn [main_logging world network written].
    split; [exact Hw1|]. by rewrite Hacc.
Qed.

End Script.

(** ** The further properties on the sample records *)

Lemma retweet_shifted_views :
  views (lib := sample_lib) retweet_shifted retweet_shifted_view.
Proof.
  eexists. split; [reflexivity|]. split; [reflexivity|].
  split; [eexists; split; reflexivity|]. split; [reflexivity|].
  split; [eexists; repeat split; reflexivity|]. split; [reflexivity|].
  split; [eexists; split; reflexivity|]. by left.
Qed.

Lemma bare_post_views : views (lib := sample_lib) bare_post bare_post_view.
Proof.
  eexists. split; [reflexivity|]. split; [reflexivity|].
  split; [eexists; split; reflexivity|]. split; [reflexivity|].
  split; [reflexivity|]. split; [reflexivity|].
  split; [eexists; split; reflexivity|]. by left.
Qed.

Lemma good_store_views :
  Forall (fun tweet => exists v, views (lib := sample_lib) tweet v)
         (find_tweets good_store "X").
Proof.
  repeat apply Forall_cons_2; [| | |apply Forall_nil_2].
  - eexists. apply post_with_ghost_views.
  - eexists. apply retweet_shifted_views.
  - eexists. apply bare_post_views.
Qed.

Lemma scan_moves_by_steps_witness :
  exists r w',
    query_tweets (lib := sample_lib) bad_store "X" initial_world = (r, w') /\
    reachable (network w') /\
    evolves (network initial_world) (network w') /\
    (forall n, has_node n (network initial_world) = true ->
               has_node n (network w') = true).
Proof.
  eexists _, _. split; [by vm_compute|].
  eapply (scan_moves_by_steps (lib := sample_lib) bad_store "X" initial_world);
    [apply reach_empty|by vm_compute].
Defined.

Lemma scan_journal_witness :
  exists r w',
    query_tweets (lib := sample_lib) bad_store "X" initial_world = (r, w') /\
    (exists l, log w' = log initial_world ++ InfoQueryBegin :: InfoQueryString "X" :: l /\
               Forall (fun x => is_anomaly x = true) l) /\
    stdout w' = stdout initial_world ++ match r with Ok _ => ["Done"] | Raise _ => [] end.
Proof.
  eexists _, _. split; [by vm_compute|].
  eapply (scan_journal (lib := sample_lib) bad_store "X" initial_world);
    [done|by vm_compute].
Defined.

Lemma record_touches_author_edges_witness :
  exists r w',
    process_tweet (lib := sample_lib) retweet_shifted (world_of two_users_quoted)
      = (r, w') /\
    adj (network w') !! (1, 2) = adj (network (world_of two_users_quoted)) !! (1, 2).
Proof.
  eexists _, _. split; [by vm_compute|].
  eapply (record_touches_author_edges (lib := sample_lib) retweet_shifted
           (world_of two_users_quoted) _ _ 1 2); [by vm_compute|done].
Defined.

Lemma record_adopts_author_only_witness :
  exists r w',
    process_tweet (lib := sample_lib) retweet_shifted (world_of two_users) = (r, w') /\
    adoption (network w') 400 = adoption (network (world_of two_users)) 400.
Proof.
  eexists _, _. split; [by vm_compute|].
  eapply (record_adopts_author_only (lib := sample_lib) retweet_shifted
           (world_of two_users) _ _ 400); [by vm_compute|done].
Defined.

Lemma scan_stops_at_first_failure_witness :
  exists w2,
    query_tweets (lib := sample_lib) bad_store "X" initial_world
      = (Raise (KeyError "id"), w2).
Proof.
  eexists.
  eapply (scan_stops_at_first_failure (lib := sample_lib) bad_store "X"
            [first_post stamp_1000] post_without_id [the_retweet stamp_2000]
            initial_world);
    [done|reflexivity|by vm_compute|by vm_compute].
Defined.

Lemma scan_of_expected_records_returns_witness :
  exists w',
    query_tweets (lib := sample_lib) good_store "X" initial_world = (Ok tt, w') /\
    reachable (network w') /\
    stdout w' = stdout initial_world ++ ["Done"].
Proof.
  apply (scan_of_expected_records_returns (lib := sample_lib) good_store "X"
           initial_world); [done|apply reach_empty|apply good_store_views].
Defined.

Lemma record_settles_author_adoption_witness :
  exists r w',
    process_tweet (lib := sample_lib) post_without_id initial_world = (r, w') /\
    adoption (network w') 300 =
    Some (match adoption (network initial_world) 300 with
          | Some t0 => Z.min t0 1000
          | None => 1000
          end).
Proof.
  eexists _, _. split; [by vm_compute|].
  eapply (record_settles_author_adoption (lib := sample_lib) post_without_id
           300 (VStr stamp_1000) 1000 initial_world);
    [reflexivity|reflexivity|reflexivity|by vm_compute].
Defined.

Lemma plain_record_adds_author_witness :
  exists g',
    add_user 100 (Some 1000) (network initial_world) = Ok g' /\
    process_tweet (lib := sample_lib) bare_post initial_world =
      (Ok tt, mkWorld g' (log initial_world) (store_trace initial_world)
                      (stdout initial_world)).
Proof.
  apply (plain_record_adds_author (lib := sample_lib) bare_post bare_post_view
           initial_world); [apply bare_post_views|reflexivity..|by left].
Defined.

Lemma fresh_mention_makes_edge_witness :
  exists w',
    process_tweet (lib := sample_lib) retweet_shifted initial_world = (Ok tt, w') /\
    edge_has_kind (network w') 200 400 "M" = true.
Proof.
  apply (fresh_mention_makes_edge (lib := sample_lib) retweet_shifted
           retweet_shifted_view [alice_mention; bob_mention_shifted]
           bob_mention_shifted 400 initial_world).
  - apply retweet_shifted_views.
  - apply reach_empty.
  - reflexivity.
  - right. by left.
  - split; reflexivity.
Defined.

(** The retweet as the store has it: the retweet edge to the original author
    carries the mention kind too, and user 400 is mentioned although the
    retweeted record names that user as well. *)
Example retweet_shifted_run :
  exists w',
    process_tweet (lib := sample_lib) retweet_shifted initial_world = (Ok tt, w') /\
    adj (network w') =
      <[(200, 400) := mkEdgeAttr (Some "M") (Some 2000)]>
        (<[(200, 100) := mkEdgeAttr (Some "RM") (Some 2000)]> ∅).
Proof. eexists. split; [by vm_compute|]. by vm_compute. Qed.


(** The same store under a hashtag that makes a file name in a directory
    that is not there: the scan returns, the writer raises. *)
Example main_unwritable_run :
  exists s',
    main (lib := sample_lib) no_slash good_store "a/b" initial_session
      = (WriterRaised, s') /\
    written s' = [].
Proof. eexists. split; [by vm_compute|]. by vm_compute. Qed.

Lemma main_on_expected_records_witness :
  exists s',
    let g := network (world s') in
    reachable g /\
    if no_slash ("X" +:+ ".graphml") g then
      main (lib := sample_lib) no_slash good_store "X" initial_session
        = (Completed, s') /\
      written s' = [("X" +:+ ".graphml", g)]
    else
      main (lib := sample_lib) no_slash good_store "X" initial_session
        = (WriterRaised, s') /\
      written s' = [].
Proof.
  apply (main_on_expected_records (lib := sample_lib) no_slash good_store "X");
    [done|apply good_store_views].
Defined.

(** C8, as stated, fails in two ways.  On a retweet whose own mention list
    has a malformed entry and the entry of user 400 that the retweeted
    record has too, the record is processed and the anomaly logged, but the
    valid entry is already counted: no mention edge is made.  And on a
    record without an ["id"] of its own the handler of the malformed entry
    raises in its turn, which ends the scan: the record that follows is not
    processed and no mention edge is made. *)
Lemma malformed_mention_counterexamples :
  (exists w',
     process_tweet (lib := sample_lib) retweet_with_ghost initial_world = (Ok tt, w') /\
     malformed (lib := sample_lib) ghost_mention = true /\
     mention_id (lib := sample_lib) bob_mention = Ok 400 /\
     log w' = [ErrorAbnormalMention (VInt 10)] /\
     edge_has_kind (network w') 200 400 "M" = false) /\
  (exists w',
     for_each [post_without_id; first_post stamp_2000]
              (process_tweet (lib := sample_lib)) initial_world
       = (Raise (KeyError "id"), w') /\
     log w' = [] /\
     edge_has_kind (network w') 300 400 "M" = false /\
     has_node 100 (network w') = false).
Proof.
  split.
  - eexists. split; [by vm_compute|]. by vm_compute.
  - eexists. split; [by vm_compute|]. by vm_compute.
Qed.
